(** * First-party-data validation (modules/validationFpdModule/index.js)

    A shallow embedding of the ortb2 validation module and the properties
    of its filtering engine.

    JavaScript values are embedded as a JSON-like tree extended with
    [undefined].  The module reports problems through [logWarn] and can be
    interrupted by a [TypeError]; both effects are kept: every operation
    of the module runs in a writer monad over the emitted diagnostics
    whose outcome is a value, a [TypeError], or fuel exhaustion of the
    recursive descent. *)

From Stdlib Require Import List String Ascii Bool Arith ZArith Lia.
From Stdlib Require Import DecimalString DecimalNat Decimal.
Import ListNotations.
Open Scope string_scope.
Open Scope list_scope.
Set Warnings "-register-all".

(* ================================================================= *)
(** ** JavaScript values *)

(** A Number.  The module never computes with numbers: it observes them
    through [typeof], [isFinite], truthiness and conversion to a string,
    so finite numbers carry an integer payload (the two zeros are not
    told apart by any of these observations). *)
Inductive number : Type :=
| NaN
| Infinity (negative : bool)
| Finite (z : Z).

(** Data trees and schema tables alike.  An object is the list of its own
    enumerable properties in enumeration order; the prototype chain is
    not part of the embedding, so a property name that is not an own
    property reads as [undefined]. *)
Inductive value : Type :=
| VUndef
| VNull
| VBool (b : bool)
| VNum (n : number)
| VStr (s : string)
| VArr (elems : list value)
| VObj (props : list (string * value)).

Definition typeof (v : value) : string :=
  match v with
  | VUndef => "undefined"
  | VNull => "object"
  | VBool _ => "boolean"
  | VNum _ => "number"
  | VStr _ => "string"
  | VArr _ => "object"
  | VObj _ => "object"
  end.

Definition Array_isArray (v : value) : bool :=
  match v with VArr _ => true | _ => false end.

(** ToBoolean. *)
Definition truthy (v : value) : bool :=
  match v with
  | VUndef | VNull => false
  | VBool b => b
  | VNum NaN => false
  | VNum (Infinity _) => true
  | VNum (Finite z) => negb (z =? 0)%Z
  | VStr s => negb (s =? "")
  | VArr _ | VObj _ => true
  end.

(** The global [isFinite] on a value that is already a number. *)
Definition isFinite (v : value) : bool :=
  match v with VNum (Finite _) => true | _ => false end.

(** [v === s] for a string literal [s]. *)
Definition strict_eq_str (v : value) (s : string) : bool :=
  match v with VStr s' => (s' =? s) | _ => false end.

Definition string_of_nat (n : nat) : string :=
  NilEmpty.string_of_uint (Nat.to_uint n).

Definition string_of_Z (z : Z) : string :=
  NilZero.string_of_int (Z.to_int z).

Fixpoint join (sep : string) (l : list string) : string :=
  match l with
  | [] => ""
  | [s] => s
  | s :: l' => s ++ sep ++ join sep l'
  end.

(** ToString, which is also ToPropertyKey on the values of the embedding
    and the conversion performed by a template literal. *)
Fixpoint ToString (v : value) : string :=
  match v with
  | VUndef => "undefined"
  | VNull => "null"
  | VBool true => "true"
  | VBool false => "false"
  | VNum NaN => "NaN"
  | VNum (Infinity false) => "Infinity"
  | VNum (Infinity true) => "-Infinity"
  | VNum (Finite z) => string_of_Z z
  | VStr s => s
  | VArr elems =>
      join "," (map (fun e => match e with
                              | VUndef | VNull => ""
                              | _ => ToString e
                              end) elems)
  | VObj _ => "[object Object]"
  end.

(** An array index: the canonical decimal numeral of a natural number. *)
Definition index_of_key (k : string) : option nat :=
  match NilEmpty.uint_of_string k with
  | Some d => let i := Nat.of_uint d in
              if string_of_nat i =? k then Some i else None
  | None => None
  end.

Fixpoint lookup (k : string) (props : list (string * value)) : option value :=
  match props with
  | [] => None
  | (k', v) :: props' => if k' =? k then Some v else lookup k props'
  end.

Definition char_at (s : string) (i : nat) : value :=
  match String.get i s with
  | Some c => VStr (String c EmptyString)
  | None => VUndef
  end.

Definition number_of_nat (n : nat) : value := VNum (Finite (Z.of_nat n)).

(** [v[k]] on a receiver that is neither [undefined] nor [null].  (On
    those two the access raises; see [get_m].)  The values here carry
    their own properties only: a name that the receiver would inherit
    from a prototype reads as [undefined]. *)
Definition get (v : value) (k : string) : value :=
  match v with
  | VObj props => match lookup k props with Some x => x | None => VUndef end
  | VArr elems =>
      match index_of_key k with
      | Some i => nth i elems VUndef
      | None => if k =? "length" then number_of_nat (List.length elems)
                else VUndef
      end
  | VStr s =>
      match index_of_key k with
      | Some i => char_at s i
      | None => if k =? "length" then number_of_nat (String.length s)
                else VUndef
      end
  | _ => VUndef
  end.

(** [Object.keys(v)] on a receiver that is neither [undefined] nor
    [null]. *)
Definition Object_keys (v : value) : list string :=
  match v with
  | VObj props => map fst props
  | VArr elems => map string_of_nat (seq 0 (List.length elems))
  | VStr s => map string_of_nat (seq 0 (String.length s))
  | _ => []
  end.

(** [o[k] = v] on a plain object: an existing property keeps its place.
    (For a name other than [__proto__], which a plain object inherits as
    an accessor and which an assignment does not turn into a property.) *)
Fixpoint obj_set (props : list (string * value)) (k : string) (v : value)
  : list (string * value) :=
  match props with
  | [] => [(k, v)]
  | (k', v') :: props' =>
      if k' =? k then (k', v) :: props' else (k', v') :: obj_set props' k v
  end.

(* ================================================================= *)
(** ** Effects: diagnostics and exceptions *)

Inductive outcome (A : Type) : Type :=
| Ret (a : A)
| TypeError
| OutOfFuel.
Arguments Ret {A} a.
Arguments TypeError {A}.
Arguments OutOfFuel {A}.

(** A computation: the diagnostics handed to [logWarn] so far, in order,
    and how the computation ended. *)
Definition M (A : Type) : Type := (list string * outcome A)%type.

Definition ret {A} (a : A) : M A := ([], Ret a).

Definition bind {A B} (m : M A) (f : A -> M B) : M B :=
  match m with
  | (l, Ret a) => let (l', o) := f a in (l ++ l', o)
  | (l, TypeError) => (l, TypeError)
  | (l, OutOfFuel) => (l, OutOfFuel)
  end.

Definition logWarn (msg : string) : M unit := ([msg], Ret tt).
Definition throw {A} : M A := ([], TypeError).
Definition out_of_fuel {A} : M A := ([], OutOfFuel).

Declare Scope js_scope.
Delimit Scope js_scope with js.
Notation "x <- m ;; k" := (bind m (fun x => k))
  (at level 61, m at next level, right associativity) : js_scope.
Notation "m ;;; k" := (bind m (fun _ => k))
  (at level 61, right associativity) : js_scope.
Open Scope js_scope.

Definition diagnostics {A} (m : M A) : list string := fst m.
Definition result {A} (m : M A) : outcome A := snd m.

(** [v[k]] on any receiver. *)
Definition get_m (v : value) (k : string) : M value :=
  match v with
  | VUndef | VNull => throw
  | _ => ret (get v k)
  end.

(** [Array.prototype.filter]: the callback sees the element and its index
    in the array being filtered, and answers with the truthiness of what
    it returns. *)
Fixpoint filter_from {A} (f : A -> nat -> M bool) (l : list A) (i : nat)
  : M (list A) :=
  match l with
  | [] => ret []
  | x :: l' =>
      b <- f x i;;
      rest <- filter_from f l' (S i);;
      ret (if b then x :: rest else rest)
  end.
Definition Array_filter {A} (f : A -> nat -> M bool) (l : list A) :=
  filter_from f l 0.

(** [Array.prototype.reduce] with an initial value. *)
Fixpoint reduce_from {A R} (f : R -> A -> nat -> M R) (l : list A) (acc : R)
  (i : nat) : M R :=
  match l with
  | [] => ret acc
  | x :: l' => acc' <- f acc x i;; reduce_from f l' acc' (S i)
  end.
Definition Array_reduce {A R} (f : R -> A -> nat -> M R) (l : list A) (init : R) :=
  reduce_from f l init 0.

(* ================================================================= *)
(** ** Helpers imported from src/utils.js *)

(** Modelled from the spec: [isNumber] of src/utils.js, which is not part
    of the sources at hand; "numeric" in the emptiness rule, true of
    every Number including zero, NaN and the infinities. *)
Definition isNumber (v : value) : bool :=
  match v with VNum _ => true | _ => false end.

(** Modelled from the spec: [isEmpty] of src/utils.js, which is not part
    of the sources at hand; a falsy value, or a structured value (or
    string) with zero entries. *)
Definition isEmpty (v : value) : bool :=
  if negb (truthy v) then true
  else match v with
       | VArr elems => negb (0 <? List.length elems)%nat
       | VStr s => negb (0 <? String.length s)%nat
       | _ => (List.length (Object_keys v) <=? 0)%nat
       end.

(** [key.split('.')]. *)
Fixpoint split_dot (s : string) : list string :=
  match s with
  | EmptyString => [""]
  | String c s' =>
      if Ascii.eqb c "."%char then "" :: split_dot s'
      else match split_dot s' with
           | [] => [String c ""]
           | seg :: segs => String c seg :: segs
           end
  end.

(** One step of the walk of [deepAccess]: [obj ? obj[seg] : undefined]. *)
Definition descend (o : value) (seg : string) : value :=
  if truthy o then get o seg else VUndef.

(** Modelled from the spec: [deepAccess] of src/utils.js, which is not
    part of the sources at hand; the schema lookup by dotted path, which
    walks the table one path segment at a time and yields [undefined] as
    soon as an intermediate value is falsy. *)
Definition deepAccess (obj : value) (path : string) : value :=
  fold_left descend (split_dot path) obj.

(* ================================================================= *)
(** ** The module *)

(** The two fields of the object literal [{type: ..., isArray: ...}] that
    the module hands to [typeValidation] and to [filterArrayData]. *)
Record shape : Type := mkShape { type : value; isArray : value }.

(** [isEmptyData(data)]. *)
Definition isEmptyData (data : value) : bool :=
  let check := true in
  if (typeof data =? "object") && negb (isEmpty data) then false
  else if negb (typeof data =? "object") && (isNumber data || truthy data)
       then false
       else check.

(** [getRequiredData(obj, required, parent, i)].  [check] is the local
    variable the callback of [forEach] assigns to; [forEach] is looked up
    on [required], which raises unless [required] is an array. *)
Definition getRequiredData (obj required : value) (parent : string) (i : nat)
  : M bool :=
  match required with
  | VArr keys =>
      Array_reduce (fun check key _ =>
        v <- get_m obj (ToString key);;
        if negb (truthy v) || isEmptyData v then
          logWarn ("Filtered " ++ parent ++ "[] value at index "
                   ++ string_of_nat i
                   ++ " in ortb2 data: missing required property "
                   ++ ToString key);;;
          ret false
        else ret check) keys true
  | _ => throw
  end.

(** [typeValidation(data, mapping)]. *)
Definition typeValidation (data : value) (mapping : shape) : bool :=
  let check := false in
  if strict_eq_str (type mapping) "string" then
    if typeof data =? "string" then true else check
  else if strict_eq_str (type mapping) "number" then
    if (typeof data =? "number") && isFinite data then true else check
  else if strict_eq_str (type mapping) "object" then
    if typeof data =? "object" then
      if (Array_isArray data && truthy (isArray mapping))
         || (negb (Array_isArray data) && negb (truthy (isArray mapping)))
      then true else check
    else check
  else check.

Section Engine.

(** The schema table of ./config.js and the module-level variable
    [optout] as it stands during the traversal. *)
Variable ORTB_MAP : value.
Variable optout : value.

Section Arrays.

(** The object filter that [filterArrayData] recurses into. *)
Variable validateFpd : value -> string -> string -> M value.

(** [filterArrayData(arr, child, path, parent)]; [filter] is looked up
    on [arr], which raises unless [arr] is an array. *)
Definition filterArrayData_with (arr : value) (child : shape)
  (path parent : string) : M value :=
  match arr with
  | VArr elems =>
      typed <- Array_filter (fun index i =>
        let check :=
          typeValidation index (mkShape (type child) (isArray child)) in
        if check && Bool.eqb (Array_isArray index) (truthy (isArray child))
        then ret true
        else
          logWarn ("Filtered " ++ parent ++ "[] value at index "
                   ++ string_of_nat i
                   ++ " in ortb2 data: expected type "
                   ++ ToString (type child));;;
          ret false) elems;;
      complete <- Array_filter (fun index i =>
        let mapping := deepAccess ORTB_MAP path in
        requiredCheck <-
          (if truthy mapping && truthy (get mapping "required")
           then getRequiredData index (get mapping "required") parent i
           else ret true);;
        ret requiredCheck) typed;;
      arr' <- Array_reduce (fun result val i =>
        let mapping := deepAccess ORTB_MAP path in
        pushed <-
          (if strict_eq_str (type child) "string" then
             ret (result ++ [val], true)
           else if strict_eq_str (type child) "object" then
             if truthy mapping && truthy (get mapping "children") then
               validObject <-
                 validateFpd val (path ++ ".children.") (parent ++ ".");;
               if (0 <? List.length (Object_keys validObject))%nat then
                 requiredCheck <-
                   getRequiredData validObject (get mapping "required")
                                   parent i;;
                 if requiredCheck then ret (result ++ [validObject], true)
                 else ret (result, false)
               else ret (result, false)
             else ret (result ++ [val], true)
           else ret (result, false));;
        let (result', typeBool) := pushed : list value * bool in
        if negb typeBool then
          logWarn ("Filtered " ++ parent ++ "[] value at index "
                   ++ string_of_nat i
                   ++ "  in ortb2 data: expected type "
                   ++ ToString (type child));;;
          ret result'
        else ret result') complete [];;
      ret (VArr arr')
  | _ => throw
  end.

End Arrays.

(** [validateFpd(fpd, path, parent)].  The recursion of the source
    descends into the data tree; here it is driven by [fuel], one unit
    per level of nesting. *)
Fixpoint validateFpd_ (fuel : nat) (fpd : value) (path parent : string)
  {struct fuel} : M value :=
  match fuel with
  | O => out_of_fuel
  | S fuel' =>
      if negb (truthy fpd) then ret (VObj [])
      else
        valid <- Array_filter (fun key _ =>
          let mapping := deepAccess ORTB_MAP (path ++ key) in
          if negb (truthy mapping) || negb (truthy (get mapping "invalid"))
          then ret (truthy (VStr key))
          else
            logWarn ("Filtered " ++ parent ++ key
                     ++ " property in ortb2 data: invalid property");;;
            ret false) (Object_keys fpd);;
        typed <- Array_filter (fun key _ =>
          let mapping := deepAccess ORTB_MAP (path ++ key) in
          let typeBool :=
            if truthy mapping
            then typeValidation (get fpd key)
                   (mkShape (get mapping "type") (get mapping "isArray"))
            else true in
          if typeBool || negb (truthy mapping) then ret (truthy (VStr key))
          else
            logWarn ("Filtered " ++ parent ++ key
                     ++ " property in ortb2 data: expected type "
                     ++ (if truthy (get mapping "isArray") then "array"
                         else ToString (get mapping "type")));;;
            ret false) valid;;
        validObject <- Array_reduce (fun result key _ =>
          let mapping := deepAccess ORTB_MAP (path ++ key) in
          if truthy mapping then
            if truthy (get mapping "optoutApplies") && truthy optout then
              logWarn ("Filtered " ++ parent ++ key
                       ++ " data: pubcid optout found");;;
              ret result
            else
              modified <-
                (if strict_eq_str (get mapping "type") "object"
                    && negb (truthy (get mapping "isArray"))
                 then validateFpd_ fuel' (get fpd key)
                        (path ++ key ++ ".children.") (parent ++ key ++ ".")
                 else if truthy (get mapping "isArray")
                         && truthy (get mapping "childType")
                 then filterArrayData_with (validateFpd_ fuel') (get fpd key)
                        (mkShape (get mapping "childType")
                                 (get mapping "childisArray"))
                        (path ++ key) (parent ++ key)
                 else ret (get fpd key));;
              if negb (isEmptyData modified)
              then ret (obj_set result key modified)
              else
                logWarn ("Filtered " ++ parent ++ key
                         ++ " property in ortb2 data: empty data found");;;
                ret result
          else ret (obj_set result key (get fpd key))) typed [];;
        ret (VObj validObject)
  end.

(** Nesting depth of a data tree. *)
Fixpoint depth (v : value) : nat :=
  match v with
  | VArr elems => S (list_max (map depth elems))
  | VObj props => S (list_max (map (fun p => depth (snd p)) props))
  | _ => 0
  end.

(** The exported functions: the descent is given the fuel that the
    depth of its argument calls for ([validateFpd_fuel] below shows that
    more fuel changes nothing). *)
Definition validateFpd (fpd : value) (path parent : string) : M value :=
  validateFpd_ (S (depth fpd)) fpd path parent.

Definition filterArrayData (arr : value) (child : shape)
  (path parent : string) : M value :=
  filterArrayData_with validateFpd arr child path parent.

(** [Object.entries(o)], which raises on [undefined] and [null]. *)
Definition Object_entries (o : value) : M (list (string * value)) :=
  match o with
  | VUndef | VNull => throw
  | _ => ret (map (fun k => (k, get o k)) (Object_keys o))
  end.

Definition Object_fromEntries (entries : list (string * value)) : value :=
  VObj (fold_left (fun o e => obj_set o (fst e) (snd e)) entries []).

(** [Array.prototype.map] with an effectful callback. *)
Fixpoint Array_map {A B} (f : A -> M B) (l : list A) : M (list B) :=
  match l with
  | [] => ret []
  | x :: l' => y <- f x;; ys <- Array_map f l';; ret (y :: ys)
  end.

(** [runValidations(data)]; the defaults [path = ''] and [parent = '']
    of [validateFpd] are written out. *)
Definition runValidations (data : value) : M value :=
  g <- get_m data "global";;
  global <- validateFpd g "" "";;
  b <- get_m data "bidder";;
  entries <- Object_entries b;;
  validated <- Array_map (fun e =>
    let (bidder, conf) := e : string * value in
    v <- validateFpd conf "" "";;
    ret (bidder, v)) entries;;
  ret (VObj [("global", global); ("bidder", Object_fromEntries validated)]).

End Engine.

(** What the storage manager answers to each of the four queries of
    [processFpd]. *)
Record storage : Type := mkStorage {
  cookiesAreEnabled : value;
  getCookie : string -> value;
  hasLocalStorage : value;
  getDataFromLocalStorage : string -> value
}.

Definition js_and (a b : value) : value := if truthy a then b else a.
Definition js_or (a b : value) : value := if truthy a then a else b.

(** [processFpd(fpdConf, data)]: the new value of the module-level
    variable [optout], and the computation of the returned tree. *)
Definition processFpd (ORTB_MAP : value) (STORAGE : storage)
  (fpdConf data : value) : value * M value :=
  let optout :=
    js_or (js_and (cookiesAreEnabled STORAGE)
                  (getCookie STORAGE "_pubcid_optout"))
          (js_and (hasLocalStorage STORAGE)
                  (getDataFromLocalStorage STORAGE "_pubcid_optout")) in
  (optout,
   skip <- get_m fpdConf "skipValidations";;
   if negb (truthy skip) then runValidations ORTB_MAP optout data
   else ret data).

(* ================================================================= *)
(** ** Tables and inputs used in the examples *)

Module Examples.

(** [{user: {type: 'object', required: ['id']}}] *)
Definition user_table : value :=
  VObj [("user", VObj [("type", VStr "object");
                       ("required", VArr [VStr "id"])])].

(** [{user: {id: "", name: "x"}}] *)
Definition user_input : value :=
  VObj [("user", VObj [("id", VStr ""); ("name", VStr "x")])].

(** [{x: {type: 'object', isArray: true, childType: 'object',
          children: {}}}]: children declared, no required list. *)
Definition children_only_table : value :=
  VObj [("x", VObj [("type", VStr "object"); ("isArray", VBool true);
                    ("childType", VStr "object"); ("children", VObj [])])].

(** [{x: [{a: "b"}]}] *)
Definition one_element_input : value :=
  VObj [("x", VArr [VObj [("a", VStr "b")]])].

(** [{x: {type: 'object', isArray: true, childType: 'object',
          required: ['id']}}] *)
Definition required_id_table : value :=
  VObj [("x", VObj [("type", VStr "object"); ("isArray", VBool true);
                    ("childType", VStr "object");
                    ("required", VArr [VStr "id"])])].


(** [[5, {a: "b"}, {id: "k"}]] *)
Definition mixed_array : value :=
  VArr [VNum (Finite 5); VObj [("a", VStr "b")]; VObj [("id", VStr "k")]].

(** [{x: {type: 'object', isArray: true,
          children: {secret: {optoutApplies: true}}}}]: an array
    descriptor with a nested schema and no [childType]. *)
Definition untyped_array_table : value :=
  VObj [("x", VObj [("type", VStr "object"); ("isArray", VBool true);
                    ("children",
                     VObj [("secret", VObj [("optoutApplies", VBool true)])])])].

(** [{x: [{secret: "s"}]}] *)
Definition secret_input : value :=
  VObj [("x", VArr [VObj [("secret", VStr "s")]])].

(** [{global: {x: [{secret: "s"}]}, bidder: {}}] *)
Definition secret_data : value :=
  VObj [("global", secret_input); ("bidder", VObj [])].

(** [{yob: {type: 'number', optoutApplies: true}}] *)
Definition yob_table : value :=
  VObj [("yob", VObj [("type", VStr "number"); ("optoutApplies", VBool true)])].

(** [{global: {yob: 1980}, bidder: {}}] *)
Definition yob_data : value :=
  VObj [("global", VObj [("yob", VNum (Finite 1980))]); ("bidder", VObj [])].

(** [{x: {type: 'object', isArray: true, childType: 'object',
          childisArray: true, children: {}, required: []}}]: an array of
    arrays with a nested schema. *)
Definition nested_array_table : value :=
  VObj [("x", VObj [("type", VStr "object"); ("isArray", VBool true);
                    ("childType", VStr "object");
                    ("childisArray", VBool true);
                    ("children", VObj []); ("required", VArr [])])].

(** [{global: {x: [["a"]]}, bidder: {}}] *)
Definition nested_array_data : value :=
  VObj [("global", VObj [("x", VArr [VArr [VStr "a"]])]); ("bidder", VObj [])].

(** [{global: {x: [{0: "a"}]}, bidder: {}}] *)
Definition nested_array_output : value :=
  VObj [("global", VObj [("x", VArr [VObj [("0", VStr "a")]])]);
        ("bidder", VObj [])].

(** [{global: {x: [5, {a: "b"}, {id: "k"}]}, bidder: {}}] *)
Definition mixed_data : value :=
  VObj [("global", VObj [("x", mixed_array)]); ("bidder", VObj [])].

(** [{global: {x: [{id: "k"}]}, bidder: {}}] *)
Definition mixed_output : value :=
  VObj [("global", VObj [("x", VArr [VObj [("id", VStr "k")]])]);
        ("bidder", VObj [])].

(** A storage manager with cookies enabled and the opt-out cookie set
    to ["1"]. *)
Definition optout_storage : storage :=
  mkStorage (VBool true) (fun _ => VStr "1") (VBool false) (fun _ => VNull).

(** A storage manager without any opt-out signal. *)
Definition plain_storage : storage :=
  mkStorage (VBool true) (fun _ => VNull) (VBool true) (fun _ => VNull).

Definition skip_config : value := VObj [("skipValidations", VBool true)].
Definition run_config : value := VObj [("skipValidations", VBool false)].

End Examples.

(** A table in the style of ./config.js, with an input, and what
    [validateFpd] makes of the input. *)
Module Samples.

(** [{name: {type: 'string'}, age: {type: 'number'}, imp: {invalid: true},
      yob: {type: 'number', optoutApplies: true},
      cur: {type: 'object', isArray: true, childType: 'string'},
      tags: {type: 'string', isArray: true, childType: 'string'},
      data: {type: 'object', isArray: true, childType: 'object',
             required: ['id'], children: {id: {type: 'string'}}}}] *)
Definition site_table : value :=
  VObj [("name", VObj [("type", VStr "string")]);
        ("age", VObj [("type", VStr "number")]);
        ("imp", VObj [("invalid", VBool true)]);
        ("yob", VObj [("type", VStr "number"); ("optoutApplies", VBool true)]);
        ("cur", VObj [("type", VStr "object"); ("isArray", VBool true);
                      ("childType", VStr "string")]);
        ("tags", VObj [("type", VStr "string"); ("isArray", VBool true);
                       ("childType", VStr "string")]);
        ("data", VObj [("type", VStr "object"); ("isArray", VBool true);
                       ("childType", VStr "object");
                       ("required", VArr [VStr "id"]);
                       ("children",
                        VObj [("id", VObj [("type", VStr "string")])])])].

(** [["USD", 5, "EUR"]] *)
Definition cur_array : list value :=
  [VStr "USD"; VNum (Finite 5); VStr "EUR"].

(** [[{id: "k", x: 1}, {id: 3}]] *)
Definition data_array : list value :=
  [VObj [("id", VStr "k"); ("x", VNum (Finite 1))];
   VObj [("id", VNum (Finite 3))]].

(** [{name: "n", age: 0, imp: [], yob: "1980", extra: {a: null},
      cur: ["USD", 5, "EUR"], data: [{id: "k", x: 1}, {id: 3}]}] *)
Definition site_input : value :=
  VObj [("name", VStr "n"); ("age", VNum (Finite 0)); ("imp", VArr []);
        ("yob", VStr "1980"); ("extra", VObj [("a", VNull)]);
        ("cur", VArr cur_array); ("data", VArr data_array)].

(** [{name: "n", age: 0, extra: {a: null}, cur: ["USD", "EUR"],
      data: [{id: "k", x: 1}]}] *)
Definition site_output : value :=
  VObj [("name", VStr "n"); ("age", VNum (Finite 0));
        ("extra", VObj [("a", VNull)]);
        ("cur", VArr [VStr "USD"; VStr "EUR"]);
        ("data", VArr [VObj [("id", VStr "k"); ("x", VNum (Finite 1))]])].

Definition site_log : list string :=
  ["Filtered imp property in ortb2 data: invalid property";
   "Filtered yob property in ortb2 data: expected type number";
   "Filtered cur[] value at index 1 in ortb2 data: expected type string";
   "Filtered data.id property in ortb2 data: expected type string";
   "Filtered data[] value at index 1  in ortb2 data: expected type object"].

(** [{global: <the input above>, bidder: {a: {imp: null}, b: null},
      other: null}] *)
Definition site_data : value :=
  VObj [("global", site_input);
        ("bidder", VObj [("a", VObj [("imp", VNull)]); ("b", VNull)]);
        ("other", VNull)].




End Samples.

(* ================================================================= *)
(** ** Vocabulary of the properties *)

(** An object or an array. *)
Definition structured (v : value) : bool :=
  match v with VArr _ | VObj _ => true | _ => false end.

(** What [getRequiredData] asks of the property named by [key]. *)
Definition present (obj key : value) : bool :=
  let v := get obj (ToString key) in
  negb (negb (truthy v) || isEmptyData v).

Definition missing_required (parent : string) (i : nat) (key : value) : string :=
  "Filtered " ++ parent ++ "[] value at index " ++ string_of_nat i
  ++ " in ortb2 data: missing required property " ++ ToString key.

Definition nullish (v : value) : bool :=
  match v with VUndef | VNull => true | _ => false end.



(** The descriptor at [path] carries [optoutApplies]. *)
Definition redact_flag (ORTB_MAP : value) (path : string) : bool :=
  let mapping := deepAccess ORTB_MAP path in
  truthy mapping && truthy (get mapping "optoutApplies").

(** Some field of the tree [v], whose fields are described below [path],
    has a descriptor that carries [optoutApplies].  The schema path of a
    field follows the module: the field [k] of an object described below
    [path] has its descriptor at [path ++ k], and the fields of its
    value, or of the elements of its value, are described below
    [path ++ k ++ ".children."]. *)
Fixpoint redactable_in (ORTB_MAP : value) (path : string) (v : value) : bool :=
  match v with
  | VObj props =>
      existsb (fun kv =>
                 redact_flag ORTB_MAP (path ++ fst kv)
                 || redactable_in ORTB_MAP (path ++ fst kv ++ ".children.") (snd kv))
              props
  | VArr elems => existsb (redactable_in ORTB_MAP path) elems
  | _ => false
  end.

(** The same for the record that [processFpd] returns: the tree under
    [global] and the tree of every bidder start at the schema root. *)
Definition redactable_in_output (ORTB_MAP : value) (out : value) : bool :=
  redactable_in ORTB_MAP "" (get out "global")
  || match get out "bidder" with
     | VObj bidders => existsb (fun b => redactable_in ORTB_MAP "" (snd b)) bidders
     | _ => false
     end.

(** Every array descriptor of type [object] that declares [children]
    also declares a [childType]. *)
Definition arrays_declare_childType (ORTB_MAP : value) : Prop :=
  forall path,
    let mapping := deepAccess ORTB_MAP path in
    truthy mapping = true ->
    strict_eq_str (get mapping "type") "object" = true ->
    truthy (get mapping "isArray") = true ->
    truthy (get mapping "children") = true ->
    truthy (get mapping "childType") = true.

(** No descriptor at or below [path]. *)
Definition unmapped_below (ORTB_MAP : value) (path : string) : Prop :=
  forall s, truthy (deepAccess ORTB_MAP (path ++ s)) = false.

(** [P] holds of [v] and of everything nested in [v]. *)
Fixpoint everywhere (P : value -> bool) (v : value) : bool :=
  P v
  && match v with
     | VArr elems => forallb (everywhere P) elems
     | VObj props => forallb (fun kv => everywhere P (snd kv)) props
     | _ => true
     end.

(** The descriptor [m] is not an array descriptor of type [object] with
    [children] and without [childType]. *)
Definition childType_declared (m : value) : bool :=
  negb (truthy m && strict_eq_str (get m "type") "object"
        && truthy (get m "isArray") && truthy (get m "children"))
  || truthy (get m "childType").

(** [m] returns [a], whatever it logs. *)
Definition returns {A} (m : M A) (a : A) : Prop := snd m = Ret a.

(** The callbacks of [filterArrayData], by name. *)
Definition type_stage (child : shape) (parent : string)
  : value -> nat -> M bool :=
  fun index i =>
    let check :=
      typeValidation index (mkShape (type child) (isArray child)) in
    if check && Bool.eqb (Array_isArray index) (truthy (isArray child))
    then ret true
    else
      logWarn ("Filtered " ++ parent ++ "[] value at index "
               ++ string_of_nat i
               ++ " in ortb2 data: expected type "
               ++ ToString (type child));;;
      ret false.

Definition required_stage (ORTB_MAP : value) (path parent : string)
  : value -> nat -> M bool :=
  fun index i =>
    let mapping := deepAccess ORTB_MAP path in
    requiredCheck <-
      (if truthy mapping && truthy (get mapping "required")
       then getRequiredData index (get mapping "required") parent i
       else ret true);;
    ret requiredCheck.

Definition shape_stage (ORTB_MAP : value)
  (validate : value -> string -> string -> M value) (child : shape)
  (path parent : string) : list value -> value -> nat -> M (list value) :=
  fun result val i =>
    let mapping := deepAccess ORTB_MAP path in
    pushed <-
      (if strict_eq_str (type child) "string" then
         ret (result ++ [val], true)
       else if strict_eq_str (type child) "object" then
         if truthy mapping && truthy (get mapping "children") then
           validObject <-
             validate val (path ++ ".children.")%string
                      (parent ++ ".")%string;;
           if (0 <? List.length (Object_keys validObject))%nat then
             requiredCheck <-
               getRequiredData validObject (get mapping "required")
                               parent i;;
             if requiredCheck then ret (result ++ [validObject], true)
             else ret (result, false)
           else ret (result, false)
         else ret (result ++ [val], true)
       else ret (result, false));;
    let (result', typeBool) := pushed : list value * bool in
    if negb typeBool then
      logWarn ("Filtered " ++ parent ++ "[] value at index "
               ++ string_of_nat i
               ++ "  in ortb2 data: expected type "
               ++ ToString (type child));;;
      ret result'
    else ret result'.

(** What the three stages make of an element that [filterArrayData]
    returned. *)
Definition settled (ORTB_MAP optout : value) (child : shape)
  (path parent : string) (e : value) : Prop :=
  typeValidation e (mkShape (type child) (isArray child))
  && Bool.eqb (Array_isArray e) (truthy (isArray child)) = true
  /\ (forall j, exists lg, required_stage ORTB_MAP path parent e j = (lg, Ret true))
  /\ (forall fuel acc j, depth e < fuel ->
        exists lg,
          shape_stage ORTB_MAP (validateFpd_ ORTB_MAP optout fuel) child
                      path parent acc e j
          = (lg, Ret (acc ++ [e]))).

(** The callbacks of [validateFpd], by name. *)
Definition invalid_stage (ORTB_MAP : value) (path parent : string)
  : string -> nat -> M bool :=
  fun key _ =>
    let mapping := deepAccess ORTB_MAP (path ++ key) in
    if negb (truthy mapping) || negb (truthy (get mapping "invalid"))
    then ret (truthy (VStr key))
    else
      logWarn ("Filtered " ++ parent ++ key
               ++ " property in ortb2 data: invalid property");;;
      ret false.

Definition type_key_stage (ORTB_MAP fpd : value) (path parent : string)
  : string -> nat -> M bool :=
  fun key _ =>
    let mapping := deepAccess ORTB_MAP (path ++ key) in
    let typeBool :=
      if truthy mapping
      then typeValidation (get fpd key)
             (mkShape (get mapping "type") (get mapping "isArray"))
      else true in
    if typeBool || negb (truthy mapping) then ret (truthy (VStr key))
    else
      logWarn ("Filtered " ++ parent ++ key
               ++ " property in ortb2 data: expected type "
               ++ (if truthy (get mapping "isArray") then "array"
                   else ToString (get mapping "type")));;;
      ret false.

(** The value that [validateFpd] stores under [key] when the descriptor
    [mapping] is there, before the emptiness test. *)
Definition modified_value (ORTB_MAP optout : value) (fuel : nat)
  (mapping v : value) (path parent key : string) : M value :=
  if strict_eq_str (get mapping "type") "object"
     && negb (truthy (get mapping "isArray"))
  then validateFpd_ ORTB_MAP optout fuel v
         (path ++ key ++ ".children.") (parent ++ key ++ ".")
  else if truthy (get mapping "isArray") && truthy (get mapping "childType")
  then filterArrayData_with ORTB_MAP (validateFpd_ ORTB_MAP optout fuel) v
         (mkShape (get mapping "childType") (get mapping "childisArray"))
         (path ++ key) (parent ++ key)
  else ret v.

Definition build_stage (ORTB_MAP optout : value) (fuel : nat) (fpd : value)
  (path parent : string)
  : list (string * value) -> string -> nat -> M (list (string * value)) :=
  fun result key _ =>
    let mapping := deepAccess ORTB_MAP (path ++ key) in
    if truthy mapping then
      if truthy (get mapping "optoutApplies") && truthy optout then
        logWarn ("Filtered " ++ parent ++ key
                 ++ " data: pubcid optout found");;;
        ret result
      else
        modified <-
          modified_value ORTB_MAP optout fuel mapping (get fpd key)
                         path parent key;;
        if negb (isEmptyData modified)
        then ret (obj_set result key modified)
        else
          logWarn ("Filtered " ++ parent ++ key
                   ++ " property in ortb2 data: empty data found");;;
          ret result
    else ret (obj_set result key (get fpd key)).

(** No array descriptor with object elements and a nested schema declares
    its elements to be arrays. *)
Definition elements_not_arrays (ORTB_MAP : value) : Prop :=
  forall path,
    let mapping := deepAccess ORTB_MAP path in
    truthy mapping = true ->
    truthy (get mapping "isArray") = true ->
    strict_eq_str (get mapping "childType") "object" = true ->
    truthy (get mapping "children") = true ->
    truthy (get mapping "childisArray") = false.

(** What the three passes of [validateFpd] make of a property that
    [validateFpd] returned. *)
Definition kept (ORTB_MAP optout : value) (path parent : string)
  (kv : string * value) : Prop :=
  let k := fst kv in
  let v := snd kv in
  (forall j, returns (invalid_stage ORTB_MAP path parent k j) true)
  /\ (forall fpd' j, get fpd' k = v ->
                     returns (type_key_stage ORTB_MAP fpd' path parent k j) true)
  /\ (forall fuel fpd' acc j,
        get fpd' k = v -> depth v < fuel ->
        returns (build_stage ORTB_MAP optout fuel fpd' path parent acc k j)
                (obj_set acc k v)).

(** The descriptor [m] is not an array descriptor with object elements
    and [children] whose elements are declared arrays. *)
Definition elements_not_arrays_at (m : value) : bool :=
  negb (truthy (get m "isArray") && truthy m
        && strict_eq_str (get m "childType") "object"
        && truthy (get m "children"))
  || negb (truthy (get m "childisArray")).

(** The computation did not run out of fuel. *)
Definition finishes {A} (m : M A) : Prop := snd m <> OutOfFuel.

(** The warning of the type stage of [filterArrayData]. *)
Definition type_stage_warning (parent : string) (i : nat) (ty : value) : string :=
  "Filtered " ++ parent ++ "[] value at index " ++ string_of_nat i
  ++ " in ortb2 data: expected type " ++ ToString ty.

(** The indices, counted from [i], of the elements of [l] that [p]
    rejects. *)
Fixpoint rejected_indices {A} (p : A -> bool) (l : list A) (i : nat) : list nat :=
  match l with
  | [] => []
  | x :: l' =>
      if p x then rejected_indices p l' (S i)
      else i :: rejected_indices p l' (S i)
  end.

Definition is_string (v : value) : bool := typeof v =? "string".





(** The test of the type stage of [filterArrayData]. *)
Definition type_ok (child : shape) (e : value) : bool :=
  typeValidation e (mkShape (type child) (isArray child))
  && Bool.eqb (Array_isArray e) (truthy (isArray child)).

(** The test of the required stage of [filterArrayData], on an element
    for which it does not raise. *)
Definition required_ok (ORTB_MAP : value) (path : string) (e : value) : bool :=
  let mapping := deepAccess ORTB_MAP path in
  if truthy mapping && truthy (get mapping "required")
  then match get mapping "required" with
       | VArr keys => forallb (present e) keys
       | _ => true
       end
  else true.

(** The two filters of [validateFpd] on a key: the key is not the empty
    string and, when it has a descriptor, the descriptor is not marked
    invalid and the value passes its type check. *)
Definition key_passes (ORTB_MAP fpd : value) (path key : string) : bool :=
  let mapping := deepAccess ORTB_MAP (path ++ key) in
  truthy (VStr key)
  && (negb (truthy mapping)
      || (negb (truthy (get mapping "invalid"))
          && typeValidation (get fpd key)
               (mkShape (get mapping "type") (get mapping "isArray")))).

(** What the reduce of [validateFpd] decides for a key: the value to
    store under it, or nothing. *)
Definition field_outcome (ORTB_MAP optout : value) (fuel : nat) (fpd : value)
  (path parent key : string) : M (option value) :=
  let mapping := deepAccess ORTB_MAP (path ++ key) in
  if truthy mapping then
    if truthy (get mapping "optoutApplies") && truthy optout then
      logWarn ("Filtered " ++ parent ++ key
               ++ " data: pubcid optout found");;;
      ret None
    else
      modified <-
        modified_value ORTB_MAP optout fuel mapping (get fpd key)
                       path parent key;;
      if negb (isEmptyData modified)
      then ret (Some modified)
      else
        logWarn ("Filtered " ++ parent ++ key
                 ++ " property in ortb2 data: empty data found");;;
        ret None
  else ret (Some (get fpd key)).

Definition store (result : list (string * value)) (key : string)
  (e : option value) : list (string * value) :=
  match e with Some v => obj_set result key v | None => result end.

(** The names that every plain object inherits from [Object.prototype]. *)
Definition inherited_names : list string :=
  ["constructor"; "hasOwnProperty"; "isPrototypeOf"; "propertyIsEnumerable";
   "toLocaleString"; "toString"; "valueOf"; "__proto__";
   "__defineGetter__"; "__defineSetter__";
   "__lookupGetter__"; "__lookupSetter__"].

Definition inherited (k : string) : bool :=
  existsb (String.eqb k) inherited_names.

(** The walk of [deepAccess] from [o] along [segs] reads own properties
    only: every value it reads a name from is a plain object, the name
    is not one that objects inherit, and the walk has nothing left to
    read from once it meets [undefined]. *)
Fixpoint reads_own_from (o : value) (segs : list string) : bool :=
  match segs with
  | [] => true
  | seg :: segs' =>
      match o with
      | VObj _ => negb (inherited seg) && reads_own_from (get o seg) segs'
      | VUndef => true
      | _ => false
      end
  end.

(** The same for the lookup of [path] in the table. *)
Definition reads_own (ORTB_MAP : value) (path : string) : bool :=
  reads_own_from ORTB_MAP (split_dot path).

(* ================================================================= *)
(** ** Properties *)

(** *** Computations *)

Lemma bind_Ret_inv {A B} (m : M A) (f : A -> M B) l b :
  bind m f = (l, Ret b) ->
  exists l1 a l2, m = (l1, Ret a) /\ f a = (l2, Ret b) /\ l = l1 ++ l2.
Proof.
  destruct m as [l1 [a | | ]]; cbn; try discriminate.
  destruct (f a) as [l2 o] eqn:E. intros H; inversion H; subst.
  exists l1, a, l2; auto.
Qed.

Lemma bind_ret_l {A B} (a : A) (f : A -> M B) : bind (ret a) f = f a.
Proof. unfold bind, ret. destruct (f a); reflexivity. Qed.

Lemma bind_eq {A B} (m : M A) (f : A -> M B) l a :
  m = (l, Ret a) -> bind m f = (l ++ fst (f a), snd (f a)).
Proof. intros ->. cbn. destruct (f a); reflexivity. Qed.

Lemma bind_ext {A B} (m : M A) (f g : A -> M B) :
  (forall lg a, m = (lg, Ret a) -> f a = g a) -> bind m f = bind m g.
Proof.
  destruct m as [lg [a | | ]]; cbn; intros H; try reflexivity.
  rewrite (H lg a eq_refl). reflexivity.
Qed.

(** Splits an equation [bind m f = (l, Ret b)] found among the
    hypotheses into its two halves. *)
Ltac inv_bind H :=
  let l1 := fresh "lg" in
  let a := fresh "a" in
  let l2 := fresh "lg" in
  let H1 := fresh "Hm" in
  let H2 := fresh "Hk" in
  let El := fresh "Elog" in
  apply bind_Ret_inv in H;
  destruct H as (l1 & a & l2 & H1 & H2 & El).

Ltac inv_ret H :=
  unfold ret in H; inversion H; subst; clear H.

Lemma returns_iff {A} (m : M A) a : returns m a <-> exists lg, m = (lg, Ret a).
Proof.
  unfold returns. destruct m as [lg o]. cbn. split.
  - intros ->. eauto.
  - intros [lg' H]. inversion H. reflexivity.
Qed.

Lemma returns_ret {A} (a : A) : returns (ret a) a.
Proof. reflexivity. Qed.

Lemma returns_bind {A B} (m : M A) (f : A -> M B) a b :
  returns m a -> returns (f a) b -> returns (bind m f) b.
Proof.
  unfold returns. destruct m as [lg o]. cbn. intros ->.
  destruct (f a) as [lg' o']. cbn. auto.
Qed.

Lemma finishes_ret {A} (a : A) : finishes (ret a).
Proof. discriminate. Qed.

Lemma finishes_bind {A B} (m : M A) (f : A -> M B) :
  finishes m -> (forall lg a, m = (lg, Ret a) -> finishes (f a)) ->
  finishes (bind m f).
Proof.
  unfold finishes. destruct m as [lg [a | | ]]; cbn; intros Hm Hf.
  - specialize (Hf lg a eq_refl). destruct (f a); cbn in *. assumption.
  - discriminate.
  - contradiction.
Qed.

Lemma finishes_warn {A} msg (m : M A) : finishes m -> finishes (logWarn msg;;; m).
Proof. intros H. apply finishes_bind; [ discriminate | intros; assumption ]. Qed.

Lemma filter_from_In {A} (f : A -> nat -> M bool) l : forall i lg l',
  filter_from f l i = (lg, Ret l') ->
  forall x, In x l' ->
  In x l /\ exists j lg', f x j = (lg', Ret true).
Proof.
  induction l as [ | y l IH]; cbn; intros i lg l' H x Hx.
  - inv_ret H. destruct Hx.
  - inv_bind H. inv_bind Hk. inv_ret Hk0.
    destruct a.
    + destruct Hx as [-> | Hx].
      * split; [now left | eauto].
      * destruct (IH _ _ _ Hm0 x Hx) as [? ?]. split; [now right | assumption].
    + destruct (IH _ _ _ Hm0 x Hx) as [? ?]. split; [now right | assumption].
Qed.

(** A filter whose callback accepts every element returns the list. *)
Lemma filter_from_all {A} (f : A -> nat -> M bool) l : forall i,
  (forall x j, In x l -> exists lg, f x j = (lg, Ret true)) ->
  exists lg, filter_from f l i = (lg, Ret l).
Proof.
  induction l as [ | y l IH]; cbn; intros i Hall.
  - eexists; reflexivity.
  - destruct (Hall y i (or_introl eq_refl)) as [lg1 E1].
    destruct (IH (S i)) as [lg2 E2]; [ intros; apply Hall; now right | ].
    rewrite E1, E2. cbn. eexists; reflexivity.
Qed.

(** A filter whose callback computes a predicate [p] and warns once for
    each element it rejects is [List.filter p]; its log is made of the
    warnings of the rejected indices. *)
Lemma filter_from_log {A} (p : A -> bool) (w : nat -> string)
  (f : A -> nat -> M bool) l : forall i,
  (forall x j, In x l -> f x j = ((if p x then [] else [w j]), Ret (p x))) ->
  filter_from f l i = (map w (rejected_indices p l i), Ret (filter p l)).
Proof.
  induction l as [ | x l IH]; cbn [filter_from rejected_indices filter];
    intros i H; [ reflexivity | ].
  rewrite (H x i (or_introl eq_refl)).
  cbn [bind]. rewrite IH by (intros; apply H; now right).
  destruct (p x); cbn; rewrite ?app_nil_r; reflexivity.
Qed.


Lemma filter_from_finishes {A} (f : A -> nat -> M bool) l : forall i,
  (forall x j, In x l -> finishes (f x j)) -> finishes (filter_from f l i).
Proof.
  induction l as [ | x l IH]; cbn [filter_from]; intros i H.
  - apply finishes_ret.
  - apply finishes_bind; [ apply H; now left | intros _ b _ ].
    apply finishes_bind; [ apply IH; intros; apply H; now right | intros ].
    apply finishes_ret.
Qed.

Lemma reduce_from_invariant {A R} (P : R -> Prop)
  (f : R -> A -> nat -> M R) l : forall init i lg r,
  (forall acc x j lg' acc',
      In x l -> P acc -> f acc x j = (lg', Ret acc') -> P acc') ->
  P init ->
  reduce_from f l init i = (lg, Ret r) -> P r.
Proof.
  induction l as [ | y l IH]; cbn; intros init i lg r Hstep Hinit H.
  - inv_ret H. assumption.
  - inv_bind H. eapply IH; [ | | exact Hk].
    + intros; eapply Hstep; eauto.
    + eapply Hstep; eauto.
Qed.

(** A reduce whose callback appends every element returns the
    accumulator followed by the list. *)
Lemma reduce_from_push {A} (f : list A -> A -> nat -> M (list A)) l :
  forall acc i,
  (forall x acc' j, In x l -> exists lg, f acc' x j = (lg, Ret (acc' ++ [x]))) ->
  exists lg, reduce_from f l acc i = (lg, Ret (acc ++ l)).
Proof.
  induction l as [ | x l IH]; cbn [reduce_from]; intros acc i Hf.
  - rewrite app_nil_r. eexists; reflexivity.
  - destruct (Hf x acc i (or_introl eq_refl)) as [lg1 E1].
    destruct (IH (acc ++ [x]) (S i)) as [lg2 E2].
    { intros; apply Hf; now right. }
    rewrite (bind_eq _ _ _ _ E1), E2. cbn [fst snd].
    rewrite <- app_assoc. eexists; reflexivity.
Qed.

Lemma reduce_from_ext {A R} (f g : R -> A -> nat -> M R) l : forall acc i,
  (forall acc' x j, In x l -> f acc' x j = g acc' x j) ->
  reduce_from f l acc i = reduce_from g l acc i.
Proof.
  induction l as [ | x l IH]; cbn [reduce_from]; intros acc i H.
  - reflexivity.
  - rewrite (H acc x i (or_introl eq_refl)).
    apply bind_ext. intros lg a _. apply IH. intros; apply H; now right.
Qed.

Lemma reduce_from_finishes {A R} (f : R -> A -> nat -> M R) l : forall acc i,
  (forall acc' x j, In x l -> finishes (f acc' x j)) ->
  finishes (reduce_from f l acc i).
Proof.
  induction l as [ | x l IH]; cbn [reduce_from]; intros acc i H.
  - apply finishes_ret.
  - apply finishes_bind; [ apply H; now left | intros _ a _ ].
    apply IH. intros; apply H; now right.
Qed.

Lemma Array_map_Forall {A B} (P : B -> Prop) (f : A -> M B) l : forall lg l',
  (forall x lg' y, In x l -> f x = (lg', Ret y) -> P y) ->
  Array_map f l = (lg, Ret l') -> Forall P l'.
Proof.
  induction l as [ | x l IH]; cbn [Array_map]; intros lg l' Hf H.
  - inv_ret H. constructor.
  - inv_bind H. inv_bind Hk. inv_ret Hk0. constructor.
    + eapply Hf; [ left; reflexivity | eassumption ].
    + eapply IH; [ | eassumption ].
      intros x0 lg' y Hx0 Hy. eapply Hf; [ right; exact Hx0 | exact Hy ].
Qed.

Lemma Array_map_returns {A} (f : A -> M A) l :
  (forall x, In x l -> returns (f x) x) -> returns (Array_map f l) l.
Proof.
  induction l as [ | x l IH]; cbn [Array_map]; intros Hf.
  - apply returns_ret.
  - eapply returns_bind; [ apply Hf; now left | ].
    eapply returns_bind; [ apply IH; intros; apply Hf; now right | ].
    apply returns_ret.
Qed.

(** *** Values and objects *)

Lemma strict_eq_str_true v s : strict_eq_str v s = true -> v = VStr s.
Proof.
  destruct v; cbn; try discriminate. intros H.
  apply String.eqb_eq in H. now subst.
Qed.

Lemma get_m_defined v k : nullish v = false -> get_m v k = ret (get v k).
Proof. destruct v; cbn; intros; try discriminate; reflexivity. Qed.

Lemma get_array_truthy m k keys : get m k = VArr keys -> truthy m = true.
Proof.
  destruct m; cbn; try discriminate; try reflexivity.
  destruct (index_of_key k).
  - unfold char_at. destruct (String.get n s); discriminate.
  - destruct (k =? "length"); discriminate.
Qed.

(** Induction on data trees. *)
Lemma value_induction (P : value -> Prop) :
  P VUndef -> P VNull -> (forall b, P (VBool b)) -> (forall n, P (VNum n)) ->
  (forall s, P (VStr s)) ->
  (forall elems, Forall P elems -> P (VArr elems)) ->
  (forall props, Forall (fun kv => P (snd kv)) props -> P (VObj props)) ->
  forall v, P v.
Proof.
  intros HU HN HB HNum HS HA HO.
  fix IH 1. intros [ | | b | n | s | elems | props ].
  - exact HU.
  - exact HN.
  - apply HB.
  - apply HNum.
  - apply HS.
  - apply HA. induction elems as [ | e elems IHe]; constructor.
    + apply IH.
    + exact IHe.
  - apply HO. induction props as [ | [k e] props IHp]; constructor.
    + apply IH.
    + exact IHp.
Qed.

Lemma list_max_In x l : In x l -> x <= list_max l.
Proof.
  intros Hin.
  pose proof (proj1 (list_max_le l (list_max l)) (Nat.le_refl _)) as Hall.
  rewrite Forall_forall in Hall. apply Hall. assumption.
Qed.

Lemma depth_prop k v props : In (k, v) props -> depth v < depth (VObj props).
Proof.
  intros Hin. cbn [depth]. apply Nat.lt_succ_r, list_max_In.
  apply (in_map (fun p => depth (snd p))) in Hin. exact Hin.
Qed.

Lemma depth_elem e elems : In e elems -> depth e < depth (VArr elems).
Proof.
  intros Hin. cbn [depth]. apply Nat.lt_succ_r, list_max_In.
  apply in_map. exact Hin.
Qed.

Lemma lookup_In k props x : lookup k props = Some x -> In (k, x) props.
Proof.
  induction props as [ | [k' v] props IH]; cbn [lookup]; [ discriminate | ].
  destruct (String.eqb_spec k' k) as [-> | Hne].
  - intros H; inversion H; subst. now left.
  - intros H. right. auto.
Qed.

Lemma lookup_NoDup props k v :
  NoDup (map fst props) -> In (k, v) props -> lookup k props = Some v.
Proof.
  induction props as [ | [k' v'] props IH]; cbn [map fst lookup]; intros Hnd Hin.
  - destruct Hin.
  - inversion Hnd as [ | ? ? Hnotin Hnd']; subst.
    destruct Hin as [Heq | Hin].
    + inversion Heq; subst. rewrite String.eqb_refl. reflexivity.
    + destruct (String.eqb_spec k' k) as [-> | Hne].
      * exfalso. apply Hnotin. apply (in_map fst) in Hin. exact Hin.
      * apply IH; assumption.
Qed.

(** Only arrays and objects hold values of type ['object'], and they
    hold them one level down. *)
Lemma depth_get v k : typeof (get v k) = "object" -> depth (get v k) < depth v.
Proof.
  destruct v as [ | | b | n | s | elems | props ]; cbn [get];
    try (cbn; discriminate).
  - destruct (index_of_key k).
    + unfold char_at. destruct (String.get n s); cbn; discriminate.
    + destruct (k =? "length")%string; cbn; discriminate.
  - destruct (index_of_key k) as [i | ].
    + destruct (nth_in_or_default i elems VUndef) as [Hin | ->].
      * intros _. apply depth_elem. assumption.
      * cbn; discriminate.
    + destruct (k =? "length")%string; cbn; discriminate.
  - destruct (lookup k props) as [x | ] eqn:E; [ | cbn; discriminate ].
    intros _. eapply depth_prop, lookup_In. eassumption.
Qed.

Lemma obj_set_keys props k v :
  map fst (obj_set props k v)
  = if existsb (fun kv => fst kv =? k)%string props then map fst props
    else map fst props ++ [k].
Proof.
  induction props as [ | [k' v'] props IH]; cbn [obj_set existsb map fst].
  - reflexivity.
  - destruct (String.eqb_spec k' k) as [-> | Hne]; cbn [orb map fst].
    + reflexivity.
    + rewrite IH. destruct (existsb _ props); reflexivity.
Qed.

Lemma existsb_key_In props k :
  existsb (fun kv : string * value => fst kv =? k)%string props = true
  <-> In k (map fst props).
Proof.
  rewrite existsb_exists, in_map_iff. split.
  - intros ([k' v] & Hin & Hk). apply String.eqb_eq in Hk. cbn in Hk. subst.
    exists (k, v); auto.
  - intros ([k' v] & Hk & Hin). cbn in Hk. subst.
    exists (k, v). split; [ assumption | apply String.eqb_refl ].
Qed.

Lemma obj_set_fresh props k v :
  ~ In k (map fst props) -> obj_set props k v = props ++ [(k, v)].
Proof.
  induction props as [ | [k' v'] props IH]; cbn [obj_set map fst In app]; intros Hk.
  - reflexivity.
  - destruct (String.eqb_spec k' k) as [-> | Hne]; [ tauto | ].
    rewrite IH by tauto. reflexivity.
Qed.

Lemma obj_set_NoDup props k v :
  NoDup (map fst props) -> NoDup (map fst (obj_set props k v)).
Proof.
  intros Hnd. rewrite obj_set_keys.
  destruct (existsb _ props) eqn:E; [ assumption | ].
  apply NoDup_app; [ assumption | constructor; [ intros [] | constructor ] | ].
  intros x Hx [<- | []].
  apply existsb_key_In in Hx. congruence.
Qed.

Lemma obj_set_Forall (Q : string * value -> Prop) props k v :
  Forall Q props -> Q (k, v) -> Forall Q (obj_set props k v).
Proof.
  intros Hall Hkv.
  induction Hall as [ | [k' v'] props Hhd Htl IH]; cbn [obj_set].
  - constructor; [ assumption | constructor ].
  - destruct (String.eqb_spec k' k) as [-> | Hne]; constructor; assumption.
Qed.

(** A reduce whose callback stores, under every key of an object, the
    value the object has there rebuilds the object. *)
Lemma reduce_from_rebuild (f : list (string * value) -> string -> nat
                               -> M (list (string * value))) props :
  forall acc i,
  NoDup (map fst acc ++ map fst props) ->
  (forall k v acc' j, In (k, v) props ->
                      exists lg, f acc' k j = (lg, Ret (obj_set acc' k v))) ->
  exists lg, reduce_from f (map fst props) acc i = (lg, Ret (acc ++ props)).
Proof.
  induction props as [ | [k v] props IH]; cbn [reduce_from map fst];
    intros acc i Hnd Hf.
  - rewrite app_nil_r. eexists; reflexivity.
  - destruct (Hf k v acc i (or_introl eq_refl)) as [lg1 E1].
    rewrite obj_set_fresh in E1.
    2:{ intros Hin. apply NoDup_remove_2 in Hnd. apply Hnd.
        apply in_or_app. now left. }
    destruct (IH (acc ++ [(k, v)]) (S i)) as [lg2 E2].
    { rewrite map_app, <- app_assoc. exact Hnd. }
    { intros; apply Hf; now right. }
    rewrite (bind_eq _ _ _ _ E1), E2. cbn [fst snd].
    rewrite <- app_assoc. eexists; reflexivity.
Qed.

Lemma fromEntries_invariant (P : list (string * value) -> Prop)
  (Q : string * value -> Prop) entries : forall acc,
  (forall o k v, P o -> Q (k, v) -> P (obj_set o k v)) ->
  P acc -> Forall Q entries ->
  P (fold_left (fun o e => obj_set o (fst e) (snd e)) entries acc).
Proof.
  induction entries as [ | [k v] entries IH]; cbn [fold_left fst snd];
    intros acc Hstep Hacc Hall.
  - assumption.
  - inversion Hall; subst. apply IH; auto.
Qed.

Lemma fromEntries_NoDup props : forall acc,
  NoDup (map fst acc ++ map fst props) ->
  fold_left (fun o e => obj_set o (fst e) (snd e)) props acc = acc ++ props.
Proof.
  induction props as [ | [k v] props IH]; cbn [fold_left map fst snd];
    intros acc Hnd.
  - rewrite app_nil_r. reflexivity.
  - rewrite obj_set_fresh.
    + rewrite IH; [ rewrite <- app_assoc; reflexivity | ].
      rewrite map_app, <- app_assoc. exact Hnd.
    + intros Hin. apply NoDup_remove_2 in Hnd. apply Hnd.
      apply in_or_app. now left.
Qed.

Lemma entries_NoDup props :
  NoDup (map fst props) ->
  map (fun k => (k, get (VObj props) k)) (map fst props) = props.
Proof.
  intros Hnd. rewrite map_map.
  rewrite <- (map_id props) at 2. apply map_ext_in.
  intros [k v] Hin. cbn [fst get].
  rewrite (lookup_NoDup _ _ _ Hnd Hin). reflexivity.
Qed.

(** *** Schema paths *)

Lemma string_app_assoc (a b c : string) :
  ((a ++ b) ++ c = a ++ (b ++ c))%string.
Proof. induction a as [ | ch a IH]; cbn; [ reflexivity | now rewrite IH ]. Qed.

Lemma split_dot_nonempty s : split_dot s <> [].
Proof.
  destruct s as [ | c s]; cbn; [ discriminate | ].
  destruct (Ascii.eqb c "."); [ discriminate | ].
  destruct (split_dot s); discriminate.
Qed.

Lemma split_dot_app a b :
  split_dot (a ++ "." ++ b) = split_dot a ++ split_dot b.
Proof.
  induction a as [ | c a IH].
  - reflexivity.
  - cbn [append split_dot]. cbn [append] in IH. rewrite IH.
    destruct (Ascii.eqb c "."); [ reflexivity | ].
    pose proof (split_dot_nonempty a) as Hne.
    destruct (split_dot a); [ contradiction | reflexivity ].
Qed.

Lemma deepAccess_app M a b :
  deepAccess M (a ++ "." ++ b) = fold_left descend (split_dot b) (deepAccess M a).
Proof. unfold deepAccess. rewrite split_dot_app, fold_left_app. reflexivity. Qed.

Lemma descend_undef segs : fold_left descend segs VUndef = VUndef.
Proof. induction segs; cbn; auto. Qed.

Lemma descend_falsy segs o :
  truthy o = false -> segs <> [] -> fold_left descend segs o = VUndef.
Proof.
  intros Ho Hne. destruct segs as [ | seg segs]; [ contradiction | ].
  cbn. unfold descend at 2. rewrite Ho. apply descend_undef.
Qed.

Lemma deepAccess_below_falsy M a b :
  truthy (deepAccess M a) = false -> deepAccess M (a ++ "." ++ b) = VUndef.
Proof.
  intros H. rewrite deepAccess_app.
  apply descend_falsy; [ assumption | apply split_dot_nonempty ].
Qed.

Lemma deepAccess_below_children M a b :
  truthy (get (deepAccess M a) "children") = false ->
  deepAccess M (a ++ ".children." ++ b) = VUndef.
Proof.
  intros H.
  change (a ++ ".children." ++ b)%string
    with (a ++ "." ++ ("children" ++ "." ++ b))%string.
  rewrite deepAccess_app, split_dot_app, fold_left_app.
  change (split_dot "children") with ["children"].
  cbn [fold_left]. apply descend_falsy; [ | apply split_dot_nonempty ].
  unfold descend. destruct (truthy (deepAccess M a)); [ assumption | reflexivity ].
Qed.

Lemma everywhere_here P v : everywhere P v = true -> P v = true.
Proof. destruct v; cbn; intros H; apply andb_prop in H; tauto. Qed.

Section Everywhere.

Variable P : value -> bool.
Hypothesis P_scalar : forall u, structured u = false -> P u = true.

Lemma everywhere_scalar u : structured u = false -> everywhere P u = true.
Proof.
  intros H. pose proof (P_scalar u H) as HP.
  destruct u; cbn in *; try discriminate; rewrite HP; reflexivity.
Qed.

Lemma everywhere_get v seg : everywhere P v = true -> everywhere P (get v seg) = true.
Proof.
  destruct v as [ | | b | n | s | elems | props ]; cbn [get];
    try (intros _; apply everywhere_scalar; reflexivity).
  - intros _. destruct (index_of_key seg).
    + unfold char_at. destruct (String.get n s);
        apply everywhere_scalar; reflexivity.
    + destruct (seg =? "length")%string; apply everywhere_scalar; reflexivity.
  - cbn [everywhere]. intros H. apply andb_prop in H. destruct H as [_ H].
    rewrite forallb_forall in H.
    destruct (index_of_key seg) as [i | ].
    + destruct (nth_in_or_default i elems VUndef) as [Hin | ->].
      * apply H. assumption.
      * apply everywhere_scalar; reflexivity.
    + destruct (seg =? "length")%string; apply everywhere_scalar; reflexivity.
  - cbn [everywhere]. intros H. apply andb_prop in H. destruct H as [_ H].
    induction props as [ | [k v] props IH]; cbn [lookup].
    + apply everywhere_scalar; reflexivity.
    + cbn [forallb snd] in H. apply andb_prop in H. destruct H as [Hv Hrest].
      destruct (k =? seg)%string; [ assumption | apply IH; assumption ].
Qed.

Lemma everywhere_deepAccess ORTB_MAP path :
  everywhere P ORTB_MAP = true -> P (deepAccess ORTB_MAP path) = true.
Proof.
  unfold deepAccess. generalize (split_dot path) as segs.
  intros segs. revert ORTB_MAP.
  induction segs as [ | seg segs IH]; intros o Ho; cbn [fold_left].
  - apply everywhere_here. assumption.
  - apply IH. unfold descend. destruct (truthy o).
    + apply everywhere_get. assumption.
    + apply everywhere_scalar. reflexivity.
Qed.

End Everywhere.

(** *** Emptiness *)

(** C9.  [isEmptyData x] is true exactly when [x] is a structured value
    (object or array) with zero entries, or [x] is not numeric and is
    falsy; hence it is false of every non-empty structure, of every
    Number (zero, NaN and the infinities included) and of every truthy
    scalar. *)
Theorem isEmptyData_spec (x : value) :
  isEmptyData x = true <->
  (structured x = true /\ List.length (Object_keys x) = 0%nat)
  \/ (isNumber x = false /\ truthy x = false).
Proof.
  destruct x as [ | | b | n | s | elems | props ]; cbn.
  - intuition.
  - intuition.
  - destruct b; intuition discriminate.
  - unfold isEmptyData; cbn. intuition discriminate.
  - unfold isEmptyData; cbn. destruct s; cbn; intuition discriminate.
  - unfold isEmptyData; cbn.
    destruct elems; cbn; intuition discriminate.
  - unfold isEmptyData; cbn.
    destruct props; cbn; intuition discriminate.
Qed.

(** *** Type check *)

Lemma typeValidation_object (v isArr : value) :
  typeValidation v (mkShape (VStr "object") isArr) = true <->
  typeof v = "object" /\ Array_isArray v = truthy isArr.
Proof.
  unfold typeValidation; cbn.
  destruct v; cbn; destruct (truthy isArr); cbn; intuition discriminate.
Qed.

Lemma typeValidation_cases v ty ia :
  typeValidation v (mkShape ty ia) = true ->
  structured v = false
  \/ (strict_eq_str ty "object" = true
      /\ Array_isArray v = truthy ia).
Proof.
  unfold typeValidation; cbn [type isArray].
  destruct (strict_eq_str ty "string") eqn:Es.
  { destruct v; cbn; intros; try discriminate; auto. }
  destruct (strict_eq_str ty "number") eqn:En.
  { destruct v; cbn; intros; try discriminate; auto. }
  destruct (strict_eq_str ty "object") eqn:Eo; [ | discriminate ].
  destruct v; cbn; intros H; try discriminate; auto;
    right; (split; [ reflexivity | ]);
    destruct (truthy ia); cbn in H; try discriminate; reflexivity.
Qed.

Lemma typeValidation_string v ty ia :
  strict_eq_str ty "string" = true ->
  typeValidation v (mkShape ty ia) = true -> structured v = false.
Proof.
  unfold typeValidation; cbn [type isArray]. intros ->.
  destruct v; cbn; intros; try discriminate; reflexivity.
Qed.

Lemma typeValidation_object_typeof v ty ia :
  strict_eq_str ty "object" = true ->
  typeValidation v (mkShape ty ia) = true -> typeof v = "object".
Proof.
  intros Hty. rewrite (strict_eq_str_true _ _ Hty).
  intros H. apply typeValidation_object in H. tauto.
Qed.


(** C4.  On the failing input: [typeValidation(null, {type: 'object',
    isArray: false})] returns true, because [typeof null] is ['object']. *)
Theorem typeValidation_accepts_null :
  typeValidation VNull (mkShape (VStr "object") (VBool false)) = true.
Proof. reflexivity. Qed.

(** *** Required fields *)

(** On an object, [getRequiredData] visits every name, warns once per
    name that fails, and answers whether all of them passed. *)
Lemma getRequiredData_defined obj keys parent i :
  nullish obj = false ->
  getRequiredData obj (VArr keys) parent i
  = (map (missing_required parent i)
         (filter (fun k => negb (present obj k)) keys),
     Ret (forallb (present obj) keys)).
Proof.
  intros Hobj. unfold getRequiredData, Array_reduce.
  match goal with |- reduce_from ?f _ _ _ = _ => set (step := f) end.
  assert (Hstep : forall check k j,
             step check k j
             = if present obj k then ret check
               else ([missing_required parent i k], Ret false)).
  { intros check k j. unfold step.
    rewrite (get_m_defined _ _ Hobj), bind_ret_l. unfold present.
    destruct (negb (truthy (get obj (ToString k)))
              || isEmptyData (get obj (ToString k))); reflexivity. }
  clearbody step.
  change (forallb (present obj) keys) with (true && forallb (present obj) keys).
  generalize true as check, 0%nat as j.
  induction keys as [ | k keys IH]; intros check j; cbn [reduce_from].
  - cbn. rewrite andb_true_r. reflexivity.
  - rewrite Hstep. cbn [filter forallb].
    destruct (present obj k); cbn [negb].
    + rewrite bind_ret_l, IH. reflexivity.
    + cbn [bind]. rewrite IH. cbn [map app].
      rewrite andb_false_r. reflexivity.
Qed.

Lemma getRequiredData_true obj keys parent i lg :
  getRequiredData obj (VArr keys) parent i = (lg, Ret true) ->
  forallb (present obj) keys = true.
Proof.
  destruct (nullish obj) eqn:Hn.
  - destruct keys as [ | k keys]; [ reflexivity | ].
    destruct obj; try discriminate; cbn; discriminate.
  - rewrite getRequiredData_defined by assumption.
    intros H; inversion H; reflexivity.
Qed.

Lemma getRequiredData_index obj required parent i lg b :
  getRequiredData obj required parent i = (lg, Ret b) ->
  forall parent' i', exists lg',
    getRequiredData obj required parent' i' = (lg', Ret b).
Proof.
  intros H parent' i'.
  destruct required as [ | | | | | keys | ]; try discriminate.
  destruct (nullish obj) eqn:Hn.
  - destruct keys as [ | k keys].
    + cbn in H. inv_ret H. eexists; reflexivity.
    + destruct obj; try discriminate; cbn in H; discriminate.
  - rewrite getRequiredData_defined in * by assumption.
    inversion H; subst. eexists; reflexivity.
Qed.

Lemma getRequiredData_finishes obj required parent i :
  finishes (getRequiredData obj required parent i).
Proof.
  unfold getRequiredData. destruct required; try discriminate.
  apply reduce_from_finishes. intros check key j _.
  apply finishes_bind.
  - destruct obj; discriminate.
  - intros _ v _. destruct (negb (truthy v) || isEmptyData v).
    + apply finishes_warn, finishes_ret.
    + apply finishes_ret.
Qed.

(** C2.  On the failing input: for [obj = {id: 0}] and the required list
    [['id']], [getRequiredData] warns that [id] is missing and returns
    false, the guard [!obj[key]] rejecting the zero before
    [isEmptyData] is asked. *)
Theorem getRequiredData_rejects_zero :
  getRequiredData (VObj [("id", VNum (Finite 0))]) (VArr [VStr "id"]) "user" 0
  = (["Filtered user[] value at index 0 in ortb2 data: missing required property id"],
     Ret false).
Proof. reflexivity. Qed.

(** *** The passes of the two filters *)

Lemma filterArrayData_with_stages ORTB_MAP validate elems child path parent :
  filterArrayData_with ORTB_MAP validate (VArr elems) child path parent
  = (typed <- Array_filter (type_stage child parent) elems;;
     complete <- Array_filter (required_stage ORTB_MAP path parent) typed;;
     arr' <- Array_reduce (shape_stage ORTB_MAP validate child path parent)
                          complete [];;
     ret (VArr arr')).
Proof. reflexivity. Qed.

Lemma validateFpd_stages ORTB_MAP optout fuel fpd path parent :
  validateFpd_ ORTB_MAP optout (S fuel) fpd path parent
  = if negb (truthy fpd) then ret (VObj [])
    else
      valid <- Array_filter (invalid_stage ORTB_MAP path parent)
                            (Object_keys fpd);;
      typed <- Array_filter (type_key_stage ORTB_MAP fpd path parent) valid;;
      validObject <- Array_reduce
                       (build_stage ORTB_MAP optout fuel fpd path parent)
                       typed [];;
      ret (VObj validObject).
Proof. reflexivity. Qed.

Lemma type_stage_true child parent x j lg :
  type_stage child parent x j = (lg, Ret true) ->
  typeValidation x (mkShape (type child) (isArray child))
  && Bool.eqb (Array_isArray x) (truthy (isArray child)) = true.
Proof.
  unfold type_stage. cbv zeta.
  destruct (typeValidation x _ && Bool.eqb _ _); [ reflexivity | ].
  intros H. inv_bind H. inv_ret Hk.
Qed.

Lemma type_stage_pass child parent x j :
  typeValidation x (mkShape (type child) (isArray child))
  && Bool.eqb (Array_isArray x) (truthy (isArray child)) = true ->
  type_stage child parent x j = ret true.
Proof. unfold type_stage. cbv zeta. intros ->. reflexivity. Qed.

Lemma type_stage_finishes child parent x j : finishes (type_stage child parent x j).
Proof.
  unfold type_stage. cbv zeta. destruct (_ && _).
  - apply finishes_ret.
  - apply finishes_warn, finishes_ret.
Qed.

Lemma required_stage_index ORTB_MAP path parent x j lg b :
  required_stage ORTB_MAP path parent x j = (lg, Ret b) ->
  forall j', exists lg', required_stage ORTB_MAP path parent x j' = (lg', Ret b).
Proof.
  unfold required_stage. cbv zeta. intros H j'.
  destruct (truthy (deepAccess ORTB_MAP path)
            && truthy (get (deepAccess ORTB_MAP path) "required")).
  - inv_bind H. inv_ret Hk.
    destruct (getRequiredData_index _ _ _ _ _ _ Hm parent j') as [lg' E].
    rewrite (bind_eq _ _ _ _ E). eexists; reflexivity.
  - eexists; exact H.
Qed.

Lemma required_stage_finishes ORTB_MAP path parent x j :
  finishes (required_stage ORTB_MAP path parent x j).
Proof.
  unfold required_stage. cbv zeta.
  apply finishes_bind; [ | intros; apply finishes_ret ].
  destruct (_ && _); [ apply getRequiredData_finishes | apply finishes_ret ].
Qed.

Lemma invalid_stage_finishes ORTB_MAP path parent key j :
  finishes (invalid_stage ORTB_MAP path parent key j).
Proof.
  unfold invalid_stage. cbv zeta. destruct (_ || _).
  - apply finishes_ret.
  - apply finishes_warn, finishes_ret.
Qed.

Lemma type_key_stage_finishes ORTB_MAP fpd path parent key j :
  finishes (type_key_stage ORTB_MAP fpd path parent key j).
Proof.
  unfold type_key_stage. cbv zeta. destruct (_ || _).
  - apply finishes_ret.
  - apply finishes_warn, finishes_ret.
Qed.

Lemma type_key_stage_true ORTB_MAP fpd path parent key j lg :
  type_key_stage ORTB_MAP fpd path parent key j = (lg, Ret true) ->
  truthy (deepAccess ORTB_MAP (path ++ key)) = true ->
  typeValidation (get fpd key)
    (mkShape (get (deepAccess ORTB_MAP (path ++ key)) "type")
             (get (deepAccess ORTB_MAP (path ++ key)) "isArray")) = true.
Proof.
  unfold type_key_stage. cbv zeta. intros H Hmap. rewrite Hmap in H.
  cbn [negb] in H. rewrite orb_false_r in H.
  destruct (typeValidation _ _); [ reflexivity | ].
  inv_bind H. inv_ret Hk.
Qed.

Lemma validateFpd_returns_object ORTB_MAP optout fuel fpd path parent lg out :
  validateFpd_ ORTB_MAP optout fuel fpd path parent = (lg, Ret out) ->
  exists props, out = VObj props.
Proof.
  destruct fuel as [ | fuel]; cbn [validateFpd_]; [ discriminate | ].
  destruct (negb (truthy fpd)); intros H.
  - inv_ret H. eauto.
  - inv_bind H. inv_bind Hk. inv_bind Hk0. inv_ret Hk. eauto.
Qed.

Lemma filterArrayData_with_returns_array
  ORTB_MAP validate arr child path parent lg out :
  filterArrayData_with ORTB_MAP validate arr child path parent = (lg, Ret out) ->
  (exists elems, arr = VArr elems) /\ (exists elems', out = VArr elems').
Proof.
  destruct arr; try discriminate. rewrite filterArrayData_with_stages.
  intros H. inv_bind H. inv_bind Hk. inv_bind Hk0. inv_ret Hk. eauto.
Qed.

(** *** Fuel *)

Section Fuel.

Variable ORTB_MAP : value.
Variable optout : value.

Section ArraysFuel.

Variable child : shape.
Variable path parent : string.
Variable elems : list value.

(** The shape stage calls the object filter on elements of type
    ['object'] only. *)
Lemma filterArrayData_with_ext validate1 validate2 :
  (forall x p q, In x elems -> typeof x = "object" ->
                 validate1 x p q = validate2 x p q) ->
  filterArrayData_with ORTB_MAP validate1 (VArr elems) child path parent
  = filterArrayData_with ORTB_MAP validate2 (VArr elems) child path parent.
Proof.
  intros Hext. rewrite !filterArrayData_with_stages.
  apply bind_ext. intros lg1 typed Htyped.
  apply bind_ext. intros lg2 complete Hcomplete.
  f_equal. apply reduce_from_ext. intros acc x j Hx.
  destruct (filter_from_In _ _ _ _ _ Hcomplete x Hx) as [Hx' _].
  destruct (filter_from_In _ _ _ _ _ Htyped x Hx') as [Hin (j1 & lgt & Hty)].
  apply type_stage_true in Hty. apply andb_prop in Hty. destruct Hty as [Hty _].
  unfold shape_stage. cbv zeta. f_equal.
  destruct (strict_eq_str (type child) "string"); [ reflexivity | ].
  destruct (strict_eq_str (type child) "object") eqn:Eobj; [ | reflexivity ].
  destruct (_ && _); [ | reflexivity ].
  rewrite Hext; [ reflexivity | assumption | ].
  eapply typeValidation_object_typeof; eassumption.
Qed.

Lemma filterArrayData_with_finishes validate :
  (forall x p q, In x elems -> typeof x = "object" -> finishes (validate x p q)) ->
  finishes (filterArrayData_with ORTB_MAP validate (VArr elems) child path parent).
Proof.
  intros Hfin. rewrite filterArrayData_with_stages.
  apply finishes_bind.
  { apply filter_from_finishes. intros; apply type_stage_finishes. }
  intros lg1 typed Htyped. apply finishes_bind.
  { apply filter_from_finishes. intros; apply required_stage_finishes. }
  intros lg2 complete Hcomplete.
  apply finishes_bind; [ | intros; apply finishes_ret ].
  apply reduce_from_finishes. intros acc x j Hx.
  destruct (filter_from_In _ _ _ _ _ Hcomplete x Hx) as [Hx' _].
  destruct (filter_from_In _ _ _ _ _ Htyped x Hx') as [Hin (j1 & lgt & Hty)].
  apply type_stage_true in Hty. apply andb_prop in Hty. destruct Hty as [Hty _].
  unfold shape_stage. cbv zeta. apply finishes_bind.
  - destruct (strict_eq_str (type child) "string"); [ apply finishes_ret | ].
    destruct (strict_eq_str (type child) "object") eqn:Eobj;
      [ | apply finishes_ret ].
    destruct (_ && _); [ | apply finishes_ret ].
    apply finishes_bind.
    + apply Hfin; [ assumption | ].
      eapply typeValidation_object_typeof; eassumption.
    + intros _ validObject _. destruct (0 <? _)%nat; [ | apply finishes_ret ].
      apply finishes_bind; [ apply getRequiredData_finishes | ].
      intros _ [ | ] _; apply finishes_ret.
  - intros _ [result' typeBool] _. destruct (negb typeBool).
    + apply finishes_warn, finishes_ret.
    + apply finishes_ret.
Qed.

End ArraysFuel.

(** More fuel than the depth of the tree changes nothing. *)
Lemma validateFpd_fuel n : forall m fpd path parent,
  depth fpd < n -> depth fpd < m ->
  validateFpd_ ORTB_MAP optout n fpd path parent
  = validateFpd_ ORTB_MAP optout m fpd path parent.
Proof.
  induction n as [ | n IH]; intros m fpd path parent Hn Hm; [ lia | ].
  destruct m as [ | m]; [ lia | ].
  rewrite !validateFpd_stages.
  destruct (negb (truthy fpd)); [ reflexivity | ].
  apply bind_ext. intros lg1 valid Hvalid.
  apply bind_ext. intros lg2 typed Htyped.
  f_equal. apply reduce_from_ext. intros acc key j Hkey.
  destruct (filter_from_In _ _ _ _ _ Htyped key Hkey) as [_ (j2 & lgt & Hty)].
  unfold build_stage. cbv zeta.
  destruct (truthy (deepAccess ORTB_MAP (path ++ key))) eqn:Emap;
    [ | reflexivity ].
  pose proof (type_key_stage_true _ _ _ _ _ _ _ Hty Emap) as Htype.
  set (mapping := deepAccess ORTB_MAP (path ++ key)) in *.
  destruct (truthy (get mapping "optoutApplies") && truthy optout);
    [ reflexivity | ].
  f_equal. unfold modified_value.
  destruct (strict_eq_str (get mapping "type") "object"
            && negb (truthy (get mapping "isArray"))) eqn:Eobj.
  { apply andb_prop in Eobj. destruct Eobj as [Eobj _].
    pose proof (depth_get fpd key
                  (typeValidation_object_typeof _ _ _ Eobj Htype)).
    apply IH; lia. }
  destruct (truthy (get mapping "isArray")
            && truthy (get mapping "childType")); [ | reflexivity ].
  destruct (get fpd key) as [ | | | | | elems | ] eqn:Eget; try reflexivity.
  pose proof (depth_get fpd key) as Hd. rewrite Eget in Hd.
  specialize (Hd eq_refl).
  apply filterArrayData_with_ext. intros x p q Hx _.
  pose proof (depth_elem _ _ Hx). apply IH; lia.
Qed.

(** With more fuel than the depth of the tree, the descent does not run
    out of fuel. *)
Lemma validateFpd_finishes n : forall fpd path parent,
  depth fpd < n ->
  finishes (validateFpd_ ORTB_MAP optout n fpd path parent).
Proof.
  induction n as [ | n IH]; intros fpd path parent Hn; [ lia | ].
  rewrite validateFpd_stages.
  destruct (negb (truthy fpd)); [ apply finishes_ret | ].
  apply finishes_bind.
  { apply filter_from_finishes. intros; apply invalid_stage_finishes. }
  intros lg1 valid Hvalid. apply finishes_bind.
  { apply filter_from_finishes. intros; apply type_key_stage_finishes. }
  intros lg2 typed Htyped.
  apply finishes_bind; [ | intros; apply finishes_ret ].
  apply reduce_from_finishes. intros acc key j Hkey.
  destruct (filter_from_In _ _ _ _ _ Htyped key Hkey) as [_ (j2 & lgt & Hty)].
  unfold build_stage. cbv zeta.
  destruct (truthy (deepAccess ORTB_MAP (path ++ key))) eqn:Emap;
    [ | apply finishes_ret ].
  pose proof (type_key_stage_true _ _ _ _ _ _ _ Hty Emap) as Htype.
  set (mapping := deepAccess ORTB_MAP (path ++ key)) in *.
  destruct (truthy (get mapping "optoutApplies") && truthy optout);
    [ apply finishes_warn, finishes_ret | ].
  apply finishes_bind.
  2:{ intros _ modified _. destruct (negb (isEmptyData modified)).
      - apply finishes_ret.
      - apply finishes_warn, finishes_ret. }
  unfold modified_value.
  destruct (strict_eq_str (get mapping "type") "object"
            && negb (truthy (get mapping "isArray"))) eqn:Eobj.
  { apply andb_prop in Eobj. destruct Eobj as [Eobj _].
    pose proof (depth_get fpd key
                  (typeValidation_object_typeof _ _ _ Eobj Htype)).
    apply IH; lia. }
  destruct (truthy (get mapping "isArray")
            && truthy (get mapping "childType")); [ | apply finishes_ret ].
  destruct (get fpd key) as [ | | | | | elems | ] eqn:Eget; try discriminate.
  pose proof (depth_get fpd key) as Hd. rewrite Eget in Hd.
  specialize (Hd eq_refl).
  apply filterArrayData_with_finishes. intros x p q Hx _.
  pose proof (depth_elem _ _ Hx). apply IH; lia.
Qed.

(** The exported [validateFpd] always comes to an end, and it is the
    descent with any sufficient amount of fuel. *)
Lemma validateFpd_terminates fpd path parent :
  finishes (validateFpd ORTB_MAP optout fpd path parent).
Proof. apply validateFpd_finishes. lia. Qed.

Lemma validateFpd_enough_fuel n fpd path parent :
  depth fpd < n ->
  validateFpd_ ORTB_MAP optout n fpd path parent
  = validateFpd ORTB_MAP optout fpd path parent.
Proof. intros H. apply validateFpd_fuel; lia. Qed.

(** The fixpoint equation of the exported [validateFpd]: the body of the
    source function, the recursive calls being calls of [validateFpd]
    and [filterArrayData] themselves. *)
Lemma validateFpd_unfold fpd path parent :
  validateFpd ORTB_MAP optout fpd path parent
  = if negb (truthy fpd) then ret (VObj [])
    else
      valid <- Array_filter (invalid_stage ORTB_MAP path parent)
                            (Object_keys fpd);;
      typed <- Array_filter (type_key_stage ORTB_MAP fpd path parent) valid;;
      validObject <- Array_reduce (fun result key _ =>
        let mapping := deepAccess ORTB_MAP (path ++ key) in
        if truthy mapping then
          if truthy (get mapping "optoutApplies") && truthy optout then
            logWarn ("Filtered " ++ parent ++ key
                     ++ " data: pubcid optout found");;;
            ret result
          else
            modified <-
              (if strict_eq_str (get mapping "type") "object"
                  && negb (truthy (get mapping "isArray"))
               then validateFpd ORTB_MAP optout (get fpd key)
                      (path ++ key ++ ".children.") (parent ++ key ++ ".")
               else if truthy (get mapping "isArray")
                       && truthy (get mapping "childType")
               then filterArrayData ORTB_MAP optout (get fpd key)
                      (mkShape (get mapping "childType")
                               (get mapping "childisArray"))
                      (path ++ key) (parent ++ key)
               else ret (get fpd key));;
            if negb (isEmptyData modified)
            then ret (obj_set result key modified)
            else
              logWarn ("Filtered " ++ parent ++ key
                       ++ " property in ortb2 data: empty data found");;;
              ret result
        else ret (obj_set result key (get fpd key))) typed [];;
      ret (VObj validObject).
Proof.
  unfold validateFpd at 1. rewrite validateFpd_stages.
  destruct (negb (truthy fpd)); [ reflexivity | ].
  apply bind_ext. intros lg1 valid Hvalid.
  apply bind_ext. intros lg2 typed Htyped.
  f_equal. apply reduce_from_ext. intros acc key j Hkey.
  destruct (filter_from_In _ _ _ _ _ Htyped key Hkey) as [_ (j2 & lgt & Hty)].
  unfold build_stage. cbv zeta.
  destruct (truthy (deepAccess ORTB_MAP (path ++ key))) eqn:Emap;
    [ | reflexivity ].
  pose proof (type_key_stage_true _ _ _ _ _ _ _ Hty Emap) as Htype.
  set (mapping := deepAccess ORTB_MAP (path ++ key)) in *.
  destruct (truthy (get mapping "optoutApplies") && truthy optout);
    [ reflexivity | ].
  f_equal. unfold modified_value.
  destruct (strict_eq_str (get mapping "type") "object"
            && negb (truthy (get mapping "isArray"))) eqn:Eobj.
  { apply andb_prop in Eobj. destruct Eobj as [Eobj _].
    pose proof (depth_get fpd key
                  (typeValidation_object_typeof _ _ _ Eobj Htype)).
    apply validateFpd_enough_fuel. lia. }
  destruct (truthy (get mapping "isArray")
            && truthy (get mapping "childType")); [ | reflexivity ].
  unfold filterArrayData.
  destruct (get fpd key) as [ | | | | | elems | ] eqn:Eget; try reflexivity.
  pose proof (depth_get fpd key) as Hd. rewrite Eget in Hd.
  specialize (Hd eq_refl).
  apply filterArrayData_with_ext. intros x p q Hx _.
  pose proof (depth_elem _ _ Hx). apply validateFpd_enough_fuel. lia.
Qed.

End Fuel.

(** *** Array filter *)

Section ArrayFilter.

Variable ORTB_MAP : value.
Variable validate : value -> string -> string -> M value.

(** Whatever the object filter does, the elements of the array that
    [filterArrayData] returns passed the required check of the
    descriptor at [path]. *)
Lemma filterArrayData_with_required arr child path parent keys lg out :
  get (deepAccess ORTB_MAP path) "required" = VArr keys ->
  filterArrayData_with ORTB_MAP validate arr child path parent = (lg, Ret out) ->
  exists elems,
    out = VArr elems
    /\ Forall (fun e => forallb (present e) keys = true) elems.
Proof.
  intros Hreq H. unfold filterArrayData_with in H.
  destruct arr as [ | | | | | elems | ]; try discriminate.
  inv_bind H. inv_bind Hk. inv_bind Hk0. inv_ret Hk.
  rename a into typed, a0 into complete, a1 into arr'.
  exists arr'. split; [ reflexivity | ].
  assert (Hcomplete : Forall (fun e => forallb (present e) keys = true) complete).
  { apply Forall_forall. intros x Hx.
    destruct (filter_from_In _ _ _ _ _ Hm0 x Hx) as [_ (j & lg' & Hj)].
    cbv zeta in Hj. rewrite Hreq in Hj.
    rewrite (get_array_truthy _ _ _ Hreq) in Hj. cbn [truthy andb] in Hj.
    inv_bind Hj. inv_ret Hk. eapply getRequiredData_true; eassumption. }
  unfold Array_reduce in Hm1.
  revert Hm1. apply reduce_from_invariant; [ | constructor ].
  intros acc x j lg' acc' Hx Hacc Hstep. cbv zeta in Hstep.
  inv_bind Hstep. destruct a as [result' typeBool].
  assert (Hres : Forall (fun e => forallb (present e) keys = true) result').
  { rewrite Forall_forall in Hcomplete.
    destruct (strict_eq_str (type child) "string").
    - inv_ret Hm1. apply Forall_app; split; auto.
    - destruct (strict_eq_str (type child) "object");
        [ | inv_ret Hm1; assumption ].
      destruct (truthy (deepAccess ORTB_MAP path)
                && truthy (get (deepAccess ORTB_MAP path) "children")).
      + inv_bind Hm1.
        destruct (0 <? Datatypes.length (Object_keys a))%nat;
          [ | inv_ret Hk0; assumption ].
        inv_bind Hk0.
        match goal with
        | Hg : getRequiredData _ _ _ _ = (_, Ret ?b),
          Hr : (if ?b then _ else _) = _ |- _ =>
            rewrite Hreq in Hg; destruct b; inv_ret Hr; [ | assumption ];
            apply Forall_app; split; [ assumption | ];
            constructor; [ | constructor ];
            eapply getRequiredData_true; eassumption
        end.
      + inv_ret Hm1. apply Forall_app; split; auto. }
  destruct (negb typeBool).
  - inv_bind Hk. inv_ret Hk0. assumption.
  - inv_ret Hk. assumption.
Qed.


End ArrayFilter.




(** C1 (as the module has it).  Required lists are enforced on the
    elements of arrays: when the descriptor at [path] declares
    [required = [r1, ...]], every element of the array returned by
    [filterArrayData] holds, under each [ri], a value that is truthy and
    not empty.  ([validateFpd] itself never consults [required], so an
    object-valued field is kept whatever its required names hold.) *)
Theorem filterArrayData_enforces_required
  ORTB_MAP optout arr child path parent keys lg out :
  get (deepAccess ORTB_MAP path) "required" = VArr keys ->
  filterArrayData ORTB_MAP optout arr child path parent = (lg, Ret out) ->
  exists elems,
    out = VArr elems
    /\ forall e key, In e elems -> In key keys ->
                     truthy (get e (ToString key)) = true
                     /\ isEmptyData (get e (ToString key)) = false.
Proof.
  intros Hreq H. unfold filterArrayData in H.
  destruct (filterArrayData_with_required _ _ _ _ _ _ _ _ _ Hreq H)
    as (elems & -> & Hall).
  exists elems. split; [ reflexivity | ].
  intros e key He Hkey. rewrite Forall_forall in Hall.
  specialize (Hall e He). rewrite forallb_forall in Hall.
  specialize (Hall key Hkey). unfold present in Hall.
  destruct (truthy (get e (ToString key)));
    destruct (isEmptyData (get e (ToString key))); cbn in Hall;
    try discriminate; auto.
Qed.

Lemma filterArrayData_enforces_required_witness :
  exists elems,
    VArr [VObj [("id", VStr "k")]] = VArr elems
    /\ forall e key, In e elems -> In key [VStr "id"] ->
                     truthy (get e (ToString key)) = true
                     /\ isEmptyData (get e (ToString key)) = false.
Proof.
  apply (filterArrayData_enforces_required Examples.required_id_table VUndef
           Examples.mixed_array (mkShape (VStr "object") VUndef) "x" "x"
           [VStr "id"]
           ["Filtered x[] value at index 0 in ortb2 data: expected type object";
            "Filtered x[] value at index 0 in ortb2 data: missing required property id"]).
  - reflexivity.
  - reflexivity.
Defined.

(** C1, Scenario C.  With ["user"] declared as [{type: 'object',
    required: ['id']}] and the input [{user: {id: "", name: "x"}}],
    [validateFpd] returns the input as it is and emits no diagnostic:
    [user] is kept although its [id] is empty. *)
Lemma validateFpd_keeps_user_without_id :
  validateFpd Examples.user_table VUndef Examples.user_input "" ""
  = ([], Ret Examples.user_input)
  /\ present (get Examples.user_input "user") (VStr "id") = false
  /\ ~ (exists d out,
          validateFpd Examples.user_table VUndef Examples.user_input "" ""
          = ([d], Ret out)
          /\ get out "user" = VUndef).
Proof.
  split; [ reflexivity | split; [ reflexivity | ] ].
  intros (d & out & H & _). vm_compute in H. discriminate H.
Qed.

(** C3.  On the failing input: with a descriptor that declares
    [children] and no [required] list, the shape stage calls
    [getRequiredData] with [undefined] for the list and the traversal
    ends in a [TypeError]. *)
Theorem validateFpd_raises_without_required :
  validateFpd Examples.children_only_table VUndef
              Examples.one_element_input "" ""
  = ([], TypeError).
Proof. reflexivity. Qed.

(** Another way into a [TypeError]: [null] passes the type stage for
    the element type [object], and the required stage then reads a
    property of it. *)
Lemma filterArrayData_null_element_raises :
  filterArrayData Examples.required_id_table VUndef (VArr [VNull])
                  (mkShape (VStr "object") VUndef) "x" "x"
  = ([], TypeError).
Proof. reflexivity. Qed.

(** C6.  On the failing input [[5, {a: "b"}, {id: "k"}]]: the type stage
    drops the element at index 0, and the required stage then reports
    [{a: "b"}], whose index in the input is 1, at index 0. *)
Theorem filterArrayData_reports_shifted_index :
  filterArrayData Examples.required_id_table VUndef Examples.mixed_array
                  (mkShape (VStr "object") VUndef) "x" "x"
  = (["Filtered x[] value at index 0 in ortb2 data: expected type object";
      "Filtered x[] value at index 0 in ortb2 data: missing required property id"],
     Ret (VArr [VObj [("id", VStr "k")]])).
Proof. reflexivity. Qed.

(** *** Entry point *)

(** C10.  When [fpdConf.skipValidations] is true (truthy), [processFpd]
    returns [data] itself and emits no diagnostic. *)
Theorem processFpd_skipValidations ORTB_MAP STORAGE fpdConf data :
  truthy (get fpdConf "skipValidations") = true ->
  snd (processFpd ORTB_MAP STORAGE fpdConf data) = ([], Ret data).
Proof.
  intros Hskip. unfold processFpd; cbn [snd].
  rewrite get_m_defined.
  - rewrite bind_ret_l, Hskip. reflexivity.
  - destruct fpdConf; cbn in *; try discriminate; reflexivity.
Qed.

Lemma processFpd_skipValidations_witness :
  snd (processFpd Examples.yob_table Examples.optout_storage
                  Examples.skip_config Examples.yob_data)
  = ([], Ret Examples.yob_data).
Proof. apply processFpd_skipValidations. reflexivity. Defined.

(** *** Redaction *)

Section Redaction.

Variable ORTB_MAP : value.

Lemma unmapped_below_extend path s :
  unmapped_below ORTB_MAP path -> unmapped_below ORTB_MAP (path ++ s).
Proof. intros H s'. rewrite string_app_assoc. apply H. Qed.

Lemma unmapped_not_redactable v : forall path,
  unmapped_below ORTB_MAP path -> redactable_in ORTB_MAP path v = false.
Proof.
  induction v as [ | | b | n | s | elems IH | props IH ] using value_induction;
    intros path Hun; cbn [redactable_in]; try reflexivity.
  - induction IH as [ | e elems He _ IHe]; cbn [existsb]; [ reflexivity | ].
    rewrite (He _ Hun), IHe. reflexivity.
  - induction IH as [ | [k e] props He _ IHe]; cbn [existsb]; [ reflexivity | ].
    cbn [fst snd] in *. rewrite IHe, orb_false_r.
    unfold redact_flag. cbv zeta. rewrite (Hun k). cbn [andb orb].
    apply He. rewrite <- string_app_assoc.
    apply unmapped_below_extend. apply unmapped_below_extend. assumption.
Qed.

Lemma falsy_unmapped path :
  truthy (deepAccess ORTB_MAP path) = false ->
  unmapped_below ORTB_MAP (path ++ ".children.").
Proof.
  intros H s. rewrite string_app_assoc.
  change (".children." ++ s)%string with ("." ++ ("children." ++ s))%string.
  rewrite deepAccess_below_falsy by assumption. reflexivity.
Qed.

Lemma no_children_unmapped path :
  truthy (get (deepAccess ORTB_MAP path) "children") = false ->
  unmapped_below ORTB_MAP (path ++ ".children.").
Proof.
  intros H s. rewrite string_app_assoc.
  rewrite deepAccess_below_children by assumption. reflexivity.
Qed.

Lemma existsb_obj_set (f : string * value -> bool) props k v :
  existsb f props = false -> f (k, v) = false ->
  existsb f (obj_set props k v) = false.
Proof.
  intros Hprops Hkv.
  induction props as [ | [k' v'] props IH]; cbn [obj_set existsb] in *.
  - rewrite Hkv. reflexivity.
  - apply orb_false_elim in Hprops. destruct Hprops as [Hhd Htl].
    destruct (String.eqb_spec k' k) as [-> | Hne]; cbn [existsb].
    + rewrite Hkv, Htl. reflexivity.
    + rewrite Hhd, (IH Htl). reflexivity.
Qed.

Lemma existsb_app_false {A} (f : A -> bool) l1 l2 :
  existsb f l1 = false -> existsb f l2 = false -> existsb f (l1 ++ l2) = false.
Proof. intros H1 H2. rewrite existsb_app, H1, H2. reflexivity. Qed.

Lemma scalar_not_redactable path v :
  structured v = false -> redactable_in ORTB_MAP path v = false.
Proof. destruct v; cbn; intros; try discriminate; reflexivity. Qed.

End Redaction.

Lemma existsb_fromEntries (f : string * value -> bool) entries : forall acc,
  existsb f acc = false ->
  Forall (fun e => f (fst e, snd e) = false) entries ->
  existsb f (fold_left (fun o e => obj_set o (fst e) (snd e)) entries acc) = false.
Proof.
  induction entries as [ | e entries IH]; cbn [fold_left]; intros acc Hacc Hall.
  - assumption.
  - inversion Hall; subst. apply IH; [ | assumption ].
    apply existsb_obj_set; assumption.
Qed.

Section RedactionProof.

Variable ORTB_MAP : value.

Section RedactedArrays.

Variable validate : value -> string -> string -> M value.
Hypothesis validate_redacts : forall val p q lg o,
  validate val p q = (lg, Ret o) -> redactable_in ORTB_MAP p o = false.

Lemma filterArrayData_with_redacts arr child path parent lg out :
  filterArrayData_with ORTB_MAP validate arr child path parent = (lg, Ret out) ->
  redactable_in ORTB_MAP (path ++ ".children.") out = false.
Proof.
  intros H. unfold filterArrayData_with in H.
  destruct arr as [ | | | | | elems | ]; try discriminate.
  inv_bind H. inv_bind Hk. inv_bind Hk0. inv_ret Hk.
  rename a into typed, a0 into complete, a1 into arr'.
  cbn [redactable_in].
  unfold Array_reduce in Hm1. revert Hm1.
  apply (reduce_from_invariant
           (fun r => existsb (redactable_in ORTB_MAP (path ++ ".children.")) r
                     = false)); [ | reflexivity ].
  intros acc x j lg' acc' Hx Hacc Hstep. cbv zeta in Hstep.
  destruct (filter_from_In _ _ _ _ _ Hm0 x Hx) as [Hx' _].
  destruct (filter_from_In _ _ _ _ _ Hm x Hx') as [_ (j1 & lg1 & Hty)].
  cbv zeta in Hty.
  inv_bind Hstep. destruct a as [result' typeBool].
  assert (Hres : existsb (redactable_in ORTB_MAP (path ++ ".children.")) result' = false).
  { destruct (strict_eq_str (type child) "string") eqn:Estr.
    - inv_ret Hm1. apply existsb_app_false; [ assumption | ].
      cbn [existsb]. rewrite orb_false_r.
      apply scalar_not_redactable.
      destruct (typeValidation x _ && _) eqn:Ec in Hty.
      + apply andb_prop in Ec. destruct Ec as [Ec _].
        eapply typeValidation_string; eassumption.
      + inv_bind Hty. inv_ret Hk0.
    - destruct (strict_eq_str (type child) "object");
        [ | inv_ret Hm1; assumption ].
      destruct (truthy (deepAccess ORTB_MAP path)) eqn:Emap; cbn [andb] in Hm1.
      + destruct (truthy (get (deepAccess ORTB_MAP path) "children")) eqn:Ech.
        * inv_bind Hm1.
          destruct (0 <? Datatypes.length (Object_keys a))%nat;
            [ | inv_ret Hk0; assumption ].
          inv_bind Hk0.
          match goal with
          | Hr : (if ?b then _ else _) = _ |- _ =>
              destruct b; inv_ret Hr; [ | assumption ]
          end.
          apply existsb_app_false; [ assumption | ].
          cbn [existsb]. rewrite orb_false_r.
          eapply validate_redacts; eassumption.
        * inv_ret Hm1. apply existsb_app_false; [ assumption | ].
          cbn [existsb]. rewrite orb_false_r.
          apply unmapped_not_redactable, no_children_unmapped. assumption.
      + inv_ret Hm1. apply existsb_app_false; [ assumption | ].
        cbn [existsb]. rewrite orb_false_r.
        apply unmapped_not_redactable, falsy_unmapped. assumption. }
  destruct (negb typeBool).
  - inv_bind Hk. inv_ret Hk0. assumption.
  - inv_ret Hk. assumption.
Qed.

End RedactedArrays.

Variable optout : value.
Hypothesis schema_ok : arrays_declare_childType ORTB_MAP.
Hypothesis optout_active : truthy optout = true.

Lemma validateFpd_redacts fuel : forall fpd path parent lg out,
  validateFpd_ ORTB_MAP optout fuel fpd path parent = (lg, Ret out) ->
  redactable_in ORTB_MAP path out = false.
Proof.
  induction fuel as [ | fuel IH]; intros fpd path parent lg out H;
    cbn [validateFpd_] in H; [ discriminate | ].
  destruct (negb (truthy fpd)); [ inv_ret H; reflexivity | ].
  inv_bind H. inv_bind Hk. inv_bind Hk0. inv_ret Hk.
  rename a into valid, a0 into typed, a1 into validObject.
  cbn [redactable_in].
  unfold Array_reduce in Hm1. revert Hm1.
  match goal with
  | |- _ -> existsb ?F _ = false =>
      apply (reduce_from_invariant (fun r => existsb F r = false));
        [ | reflexivity ]
  end.
  intros acc key j lg' acc' Hkey Hacc Hstep. cbv zeta in Hstep.
  destruct (filter_from_In _ _ _ _ _ Hm0 key Hkey) as [_ (j1 & lg1 & Hty)].
  cbv zeta in Hty.
  destruct (truthy (deepAccess ORTB_MAP (path ++ key))) eqn:Emap.
  - cbn [negb orb] in Hty. rewrite orb_false_r in Hty.
    rewrite optout_active, andb_true_r in Hstep.
    destruct (truthy (get (deepAccess ORTB_MAP (path ++ key)) "optoutApplies"))
      eqn:Eopt.
    { inv_bind Hstep. inv_ret Hk. assumption. }
    inv_bind Hstep. rename a into modified.
    destruct (negb (isEmptyData modified));
      [ inv_ret Hk | inv_bind Hk; inv_ret Hk0; assumption ].
    apply existsb_obj_set; [ assumption | ]. cbn [fst snd].
    unfold redact_flag. cbv zeta. rewrite Emap, Eopt. cbn [andb orb].
    destruct (typeValidation (get fpd key) _) eqn:Etype in Hty;
      [ | inv_bind Hty; inv_ret Hk ].
    destruct (strict_eq_str (get (deepAccess ORTB_MAP (path ++ key)) "type") "object"
              && negb (truthy (get (deepAccess ORTB_MAP (path ++ key)) "isArray")))
      eqn:Eobj.
    { eapply IH; eassumption. }
    destruct (truthy (get (deepAccess ORTB_MAP (path ++ key)) "isArray")
              && truthy (get (deepAccess ORTB_MAP (path ++ key)) "childType"))
      eqn:Earr.
    { rewrite <- string_app_assoc.
      eapply filterArrayData_with_redacts; [ | eassumption ].
      intros; eapply IH; eassumption. }
    inv_ret Hm1.
    destruct (typeValidation_cases _ _ _ Etype) as [Hsc | [Hty' Harr]].
    { apply scalar_not_redactable; assumption. }
    rewrite Hty' in Eobj. cbn [andb] in Eobj.
    apply negb_false_iff in Eobj. rewrite Eobj in Earr, Harr.
    cbn [andb] in Earr.
    rewrite <- string_app_assoc.
    apply unmapped_not_redactable, no_children_unmapped.
    destruct (truthy (get (deepAccess ORTB_MAP (path ++ key)) "children")) eqn:Ech;
      [ | reflexivity ].
    rewrite (schema_ok (path ++ key)%string Emap Hty' Eobj Ech) in Earr.
    discriminate.
  - inv_ret Hstep.
    apply existsb_obj_set; [ assumption | ]. cbn [fst snd].
    unfold redact_flag. cbv zeta. rewrite Emap. cbn [andb orb].
    rewrite <- string_app_assoc.
    apply unmapped_not_redactable, falsy_unmapped. assumption.
Qed.

End RedactionProof.

(** C7 (as the module has it).  When validation is not skipped, the
    opt-out flag is set, and every array descriptor of type [object]
    that declares [children] also declares a [childType], no field whose
    descriptor carries [optoutApplies] appears anywhere in the record
    returned by [processFpd]. *)
Theorem processFpd_redacts ORTB_MAP STORAGE fpdConf data lg out :
  arrays_declare_childType ORTB_MAP ->
  truthy (fst (processFpd ORTB_MAP STORAGE fpdConf data)) = true ->
  truthy (get fpdConf "skipValidations") = false ->
  snd (processFpd ORTB_MAP STORAGE fpdConf data) = (lg, Ret out) ->
  redactable_in_output ORTB_MAP out = false.
Proof.
  intros Hschema Hopt Hskip H. unfold processFpd in *. cbn [fst snd] in *.
  set (optout := js_or _ _) in *. clearbody optout.
  inv_bind H.
  assert (a = get fpdConf "skipValidations") as ->.
  { destruct fpdConf; cbn in Hm; try discriminate; inv_ret Hm; reflexivity. }
  rewrite Hskip in Hk. cbn [negb] in Hk.
  unfold runValidations in Hk.
  inv_bind Hk. inv_bind Hk0. inv_bind Hk. inv_bind Hk0. inv_bind Hk. inv_ret Hk0.
  unfold redactable_in_output, Object_fromEntries. cbn [get lookup String.eqb Ascii.eqb Bool.eqb].
  rewrite (validateFpd_redacts ORTB_MAP optout Hschema Hopt _ _ _ _ _ _ Hm1).
  cbn [orb].
  apply existsb_fromEntries; [ reflexivity | ].
  eapply Array_map_Forall; [ | eassumption ].
  intros [bidder conf] lg' [bidder' v] _ Hv. cbn [fst snd].
  inv_bind Hv. inv_ret Hk.
  eapply validateFpd_redacts; eassumption.
Qed.

Lemma childType_declared_scalar u :
  structured u = false -> childType_declared u = true.
Proof.
  intros Hu. unfold childType_declared.
  assert (get u "type" = VUndef) as ->
    by (destruct u; try discriminate; reflexivity).
  cbn [strict_eq_str]. rewrite andb_false_r. reflexivity.
Qed.

Lemma arrays_declare_childType_check ORTB_MAP :
  everywhere childType_declared ORTB_MAP = true ->
  arrays_declare_childType ORTB_MAP.
Proof.
  intros H path mapping Hmap Hty HisArr Hch.
  pose proof (everywhere_deepAccess childType_declared) as Hall.
  specialize (Hall childType_declared_scalar ORTB_MAP path H).
  fold mapping in Hall. unfold childType_declared in Hall.
  rewrite Hmap, Hty, HisArr, Hch in Hall. exact Hall.
Qed.

Lemma processFpd_redacts_witness :
  redactable_in_output Examples.yob_table
                       (VObj [("global", VObj []); ("bidder", VObj [])])
  = false.
Proof.
  apply (processFpd_redacts Examples.yob_table Examples.optout_storage
           Examples.run_config Examples.yob_data
           ["Filtered yob data: pubcid optout found"]).
  - apply arrays_declare_childType_check. reflexivity.
  - reflexivity.
  - reflexivity.
  - reflexivity.
Defined.

(** C7, two inputs on which a field that carries [optoutApplies] is
    returned although the opt-out flag is set: with [skipValidations]
    the data is returned as it is; and the elements of an array whose
    descriptor has no [childType] are not traversed. *)
Lemma processFpd_returns_redactable_field :
  (truthy (fst (processFpd Examples.yob_table Examples.optout_storage
                           Examples.skip_config Examples.yob_data)) = true
   /\ snd (processFpd Examples.yob_table Examples.optout_storage
                      Examples.skip_config Examples.yob_data)
      = ([], Ret Examples.yob_data)
   /\ redactable_in_output Examples.yob_table Examples.yob_data = true)
  /\
  (truthy (fst (processFpd Examples.untyped_array_table Examples.optout_storage
                           Examples.run_config Examples.secret_data)) = true
   /\ snd (processFpd Examples.untyped_array_table Examples.optout_storage
                      Examples.run_config Examples.secret_data)
      = ([], Ret Examples.secret_data)
   /\ redactable_in_output Examples.untyped_array_table Examples.secret_data
      = true).
Proof. repeat split; reflexivity. Qed.

(** *** Idempotence *)

Section IdempotentArrays.

Variable ORTB_MAP : value.
Variable optout : value.
Variable validate1 : value -> string -> string -> M value.
Hypothesis validate1_idem : forall val p q lg o,
  validate1 val p q = (lg, Ret o) ->
  (exists props, o = VObj props)
  /\ forall fuel, depth o < fuel ->
       exists lg', validateFpd_ ORTB_MAP optout fuel o p q = (lg', Ret o).

Variable child : shape.
Variable path parent : string.
Hypothesis child_not_array :
  strict_eq_str (type child) "object" = true ->
  truthy (deepAccess ORTB_MAP path)
  && truthy (get (deepAccess ORTB_MAP path) "children") = true ->
  truthy (isArray child) = false.

Lemma shape_stage_settles acc x j lg acc' :
  typeValidation x (mkShape (type child) (isArray child))
  && Bool.eqb (Array_isArray x) (truthy (isArray child)) = true ->
  (forall j, exists lg, required_stage ORTB_MAP path parent x j = (lg, Ret true)) ->
  Forall (settled ORTB_MAP optout child path parent) acc ->
  shape_stage ORTB_MAP validate1 child path parent acc x j = (lg, Ret acc') ->
  Forall (settled ORTB_MAP optout child path parent) acc'.
Proof.
  intros Htype Hreq Hacc H. unfold shape_stage in H. cbv zeta in H.
  inv_bind H. destruct a as [result' typeBool].
  assert (Forall (settled ORTB_MAP optout child path parent) result'); [ | destruct (negb typeBool);
                                       [ inv_bind Hk; inv_ret Hk0 | inv_ret Hk ];
                                       assumption ].
  clear Hk.
  assert (Hsame : strict_eq_str (type child) "string" = true
                  \/ (strict_eq_str (type child) "string" = false
                      /\ strict_eq_str (type child) "object" = true
                      /\ truthy (deepAccess ORTB_MAP path)
                         && truthy (get (deepAccess ORTB_MAP path) "children")
                         = false) ->
                  settled ORTB_MAP optout child path parent x).
  { intros Hcase. split; [ assumption | split; [ assumption | ] ].
    intros fuel acc0 j0 _. unfold shape_stage. cbv zeta.
    destruct Hcase as [-> | (-> & -> & ->)];
      rewrite bind_ret_l; cbn [negb]; eexists; reflexivity. }
  destruct (strict_eq_str (type child) "string") eqn:Estr.
  { inv_ret Hm. apply Forall_app; split; [ assumption | ].
    constructor; [ auto | constructor ]. }
  destruct (strict_eq_str (type child) "object") eqn:Eobj;
    [ | inv_ret Hm; assumption ].
  destruct (truthy (deepAccess ORTB_MAP path)
            && truthy (get (deepAccess ORTB_MAP path) "children")) eqn:Ech.
  2:{ inv_ret Hm. apply Forall_app; split; [ assumption | ].
      constructor; [ auto | constructor ]. }
  inv_bind Hm. rename a into validObject.
  match goal with Hv : validate1 _ _ _ = _ |- _ => rename Hv into Hval end.
  destruct (0 <? Datatypes.length (Object_keys validObject))%nat eqn:Ekeys;
    [ | match goal with Hr : ret _ = _ |- _ => inv_ret Hr end; assumption ].
  match goal with Hb : bind _ _ = _ |- _ => inv_bind Hb end.
  match goal with
  | Hg : getRequiredData _ _ _ _ = _ |- _ => rename Hg into Hreq1
  end.
  match goal with
  | Hr : (if ?b then _ else _) = _ |- _ =>
      destruct b; inv_ret Hr; [ | assumption ]
  end.
  apply Forall_app; split; [ assumption | ].
  constructor; [ | constructor ].
  destruct (validate1_idem _ _ _ _ _ Hval) as [[props ->] Hidem].
  pose proof (child_not_array eq_refl eq_refl) as HisArr.
  split; [ | split ].
  - rewrite (strict_eq_str_true _ _ Eobj).
    unfold typeValidation. cbn. rewrite HisArr. reflexivity.
  - intros j0. unfold required_stage. cbv zeta.
    destruct (truthy (deepAccess ORTB_MAP path)
              && truthy (get (deepAccess ORTB_MAP path) "required")).
    + destruct (getRequiredData_index _ _ _ _ _ _ Hreq1 parent j0) as [lg' E].
      rewrite (bind_eq _ _ _ _ E). eexists; reflexivity.
    + eexists; reflexivity.
  - intros fuel acc0 j0 Hfuel. unfold shape_stage. cbv zeta.
    rewrite Estr, Eobj, Ech. apply returns_iff.
    eapply returns_bind with (a := (acc0 ++ [VObj props], true));
      [ | apply returns_ret ].
    eapply returns_bind; [ apply returns_iff, Hidem, Hfuel | ].
    rewrite Ekeys.
    eapply returns_bind with (a := true); [ | apply returns_ret ].
    apply returns_iff. eapply getRequiredData_index. eassumption.
Qed.

Lemma filterArrayData_with_idempotent arr lg out :
  filterArrayData_with ORTB_MAP validate1 arr child path parent = (lg, Ret out) ->
  forall fuel, depth out <= fuel ->
    exists lg',
      filterArrayData_with ORTB_MAP (validateFpd_ ORTB_MAP optout fuel)
                           out child path parent
      = (lg', Ret out).
Proof.
  intros H fuel Hfuel.
  destruct arr as [ | | | | | elems | ]; try discriminate.
  rewrite filterArrayData_with_stages in H.
  inv_bind H. inv_bind Hk. inv_bind Hk0. inv_ret Hk.
  rename a into typed, a0 into complete, a1 into arr'.
  assert (Hsettled : Forall (settled ORTB_MAP optout child path parent) arr').
  { unfold Array_reduce in Hm1. revert Hm1.
    apply (reduce_from_invariant (Forall (settled ORTB_MAP optout child path parent))); [ | constructor ].
    intros acc x j lg' acc' Hx Hacc Hstep.
    destruct (filter_from_In _ _ _ _ _ Hm0 x Hx) as [Hx' (j2 & lgr & Hreq)].
    destruct (filter_from_In _ _ _ _ _ Hm x Hx') as [_ (j1 & lgt & Hty)].
    eapply shape_stage_settles; [ | | exact Hacc | exact Hstep ].
    - eapply type_stage_true; eassumption.
    - intros j0. eapply required_stage_index; eassumption. }
  rewrite Forall_forall in Hsettled.
  rewrite filterArrayData_with_stages. unfold Array_filter, Array_reduce.
  destruct (filter_from_all (type_stage child parent) arr' 0) as [lga E1].
  { intros x j Hx. rewrite type_stage_pass by (apply Hsettled; assumption).
    eexists; reflexivity. }
  destruct (filter_from_all (required_stage ORTB_MAP path parent) arr' 0)
    as [lgb E2].
  { intros x j Hx. apply Hsettled; assumption. }
  destruct (reduce_from_push
              (shape_stage ORTB_MAP (validateFpd_ ORTB_MAP optout fuel) child
                           path parent) arr' [] 0) as [lgc E3].
  { intros x acc' j Hx. apply Hsettled; [ assumption | ].
    pose proof (depth_elem _ _ Hx). lia. }
  rewrite (bind_eq _ _ _ _ E1), (bind_eq _ _ _ _ E2), (bind_eq _ _ _ _ E3).
  cbn [fst snd ret app]. eexists; reflexivity.
Qed.

End IdempotentArrays.

Section Idempotence.

Variable ORTB_MAP : value.
Variable optout : value.
Hypothesis schema_ok : elements_not_arrays ORTB_MAP.

Section Step.

Variable fuel0 : nat.
Hypothesis IH : forall fpd path parent lg out,
  validateFpd_ ORTB_MAP optout fuel0 fpd path parent = (lg, Ret out) ->
  forall fuel, depth out < fuel ->
    exists lg', validateFpd_ ORTB_MAP optout fuel out path parent = (lg', Ret out).

Lemma modified_value_idempotent mapping v path parent key lg modified :
  mapping = deepAccess ORTB_MAP (path ++ key) ->
  truthy mapping = true ->
  typeValidation v (mkShape (get mapping "type") (get mapping "isArray")) = true ->
  modified_value ORTB_MAP optout fuel0 mapping v path parent key
  = (lg, Ret modified) ->
  typeValidation modified (mkShape (get mapping "type") (get mapping "isArray"))
  = true
  /\ forall fuel, depth modified < fuel ->
       returns (modified_value ORTB_MAP optout fuel mapping modified
                               path parent key) modified.
Proof.
  intros Hmapping Hmap Htype H. unfold modified_value in *.
  destruct (strict_eq_str (get mapping "type") "object"
            && negb (truthy (get mapping "isArray"))) eqn:Eobj.
  { destruct (validateFpd_returns_object _ _ _ _ _ _ _ _ H) as [props ->].
    apply andb_prop in Eobj. destruct Eobj as [Hty HisArr].
    split.
    - rewrite (strict_eq_str_true _ _ Hty). apply typeValidation_object.
      apply negb_true_iff in HisArr. rewrite HisArr. auto.
    - intros fuel Hfuel. apply returns_iff. eapply IH; eassumption. }
  destruct (truthy (get mapping "isArray") && truthy (get mapping "childType"))
    eqn:Earr.
  { destruct (filterArrayData_with_returns_array _ _ _ _ _ _ _ _ H)
      as [[elems ->] [elems' ->]].
    split.
    - destruct (typeValidation_cases _ _ _ Htype) as [Hsc | [Hty Hia]];
        [ discriminate | ].
      rewrite (strict_eq_str_true _ _ Hty). apply typeValidation_object.
      auto.
    - intros fuel Hfuel. apply returns_iff.
      eapply filterArrayData_with_idempotent; [ | | exact H | lia ].
      + intros val p q lg0 o Ho. split.
        * eapply validateFpd_returns_object; eassumption.
        * eapply IH; eassumption.
      + cbn [type isArray]. intros Hct Hch.
        apply andb_prop in Earr, Hch. rewrite <- Hmapping in Hch.
        subst mapping. apply schema_ok; tauto. }
  inv_ret H. split; [ assumption | ].
  intros fuel _. apply returns_ret.
Qed.

Lemma build_stage_keeps fpd path parent acc key j lg acc' :
  (exists j1 lg1, invalid_stage ORTB_MAP path parent key j1 = (lg1, Ret true)) ->
  (exists j2 lg2, type_key_stage ORTB_MAP fpd path parent key j2 = (lg2, Ret true)) ->
  build_stage ORTB_MAP optout fuel0 fpd path parent acc key j = (lg, Ret acc') ->
  acc' = acc \/ exists v, acc' = obj_set acc key v /\ kept ORTB_MAP optout path parent (key, v).
Proof.
  intros (j1 & lg1 & Hinv) (j2 & lg2 & Hty) H.
  assert (Hkey : truthy (VStr key) = true).
  { unfold invalid_stage in Hinv. cbv zeta in Hinv.
    destruct (negb _ || negb _) in Hinv.
    - injection Hinv as _ Ht. exact Ht.
    - inv_bind Hinv. inv_ret Hk. }
  unfold build_stage in H. cbv zeta in H.
  unfold type_key_stage in Hty. cbv zeta in Hty.
  destruct (truthy (deepAccess ORTB_MAP (path ++ key))) eqn:Emap.
  - destruct (truthy (get (deepAccess ORTB_MAP (path ++ key)) "optoutApplies")
              && truthy optout) eqn:Eopt.
    { inv_bind H. inv_ret Hk. now left. }
    inv_bind H. rename a into modified.
    destruct (isEmptyData modified) eqn:Eempty; cbn [negb] in Hk;
      [ inv_bind Hk; inv_ret Hk0; now left | inv_ret Hk ].
    right. exists modified. split; [ reflexivity | ].
    cbn [negb orb] in Hty. rewrite orb_false_r in Hty.
    destruct (typeValidation (get fpd key) _) eqn:Etype in Hty;
      [ | inv_bind Hty; inv_ret Hk ].
    destruct (modified_value_idempotent _ _ _ _ _ _ _ eq_refl Emap Etype Hm)
      as [Htype' Hidem].
    unfold kept. cbn [fst snd]. split; [ | split ].
    + intros j0. apply returns_iff. eexists; exact Hinv.
    + intros fpd' j0 Hget. unfold type_key_stage. cbv zeta.
      rewrite Emap, Hget, Htype'. cbn [orb]. rewrite Hkey. apply returns_ret.
    + intros fuel fpd' acc0 j0 Hget Hfuel. unfold build_stage. cbv zeta.
      rewrite Emap, Eopt, Hget.
      eapply returns_bind; [ apply Hidem; assumption | ].
      rewrite Eempty. apply returns_ret.
  - inv_ret H. right. exists (get fpd key). split; [ reflexivity | ].
    unfold kept. cbn [fst snd]. split; [ | split ].
    + intros j0. apply returns_iff. eexists; exact Hinv.
    + intros fpd' j0 Hget. unfold type_key_stage. cbv zeta.
      rewrite Emap. cbn [orb]. rewrite Hkey. apply returns_ret.
    + intros fuel fpd' acc0 j0 Hget Hfuel. unfold build_stage. cbv zeta.
      rewrite Emap, Hget. apply returns_ret.
Qed.

End Step.

Lemma validateFpd_idempotent_fuel fuel0 : forall fpd path parent lg out,
  validateFpd_ ORTB_MAP optout fuel0 fpd path parent = (lg, Ret out) ->
  forall fuel, depth out < fuel ->
    exists lg', validateFpd_ ORTB_MAP optout fuel out path parent = (lg', Ret out).
Proof.
  induction fuel0 as [ | fuel0 IH]; intros fpd path parent lg out H fuel Hfuel;
    [ discriminate | ].
  destruct fuel as [ | fuel]; [ lia | ].
  rewrite validateFpd_stages in H.
  destruct (negb (truthy fpd)).
  { inv_ret H. eexists; reflexivity. }
  inv_bind H. inv_bind Hk. inv_bind Hk0. inv_ret Hk.
  rename a into valid, a0 into typed, a1 into validObject.
  assert (Hkept : NoDup (map fst validObject)
                  /\ Forall (kept ORTB_MAP optout path parent) validObject).
  { unfold Array_reduce in Hm1. revert Hm1.
    apply (reduce_from_invariant
             (fun r => NoDup (map fst r) /\ Forall (kept ORTB_MAP optout path parent) r));
      [ | split; constructor ].
    intros acc key j lg' acc' Hkey [Hnd Hall] Hstep.
    destruct (filter_from_In _ _ _ _ _ Hm0 key Hkey) as [Hkey' Hty].
    destruct (filter_from_In _ _ _ _ _ Hm key Hkey') as [_ Hinv].
    destruct (build_stage_keeps fuel0 IH _ _ _ _ _ _ _ _ Hinv Hty Hstep)
      as [-> | (v & -> & Hv)].
    - split; assumption.
    - split; [ apply obj_set_NoDup | apply obj_set_Forall ]; assumption. }
  destruct Hkept as [Hnd Hkept]. rewrite Forall_forall in Hkept.
  rewrite validateFpd_stages. cbn [truthy negb Object_keys].
  unfold Array_filter, Array_reduce.
  destruct (filter_from_all (invalid_stage ORTB_MAP path parent)
                            (map fst validObject) 0) as [lga Ea].
  { intros k j Hk. apply in_map_iff in Hk. destruct Hk as ([k' v] & <- & Hin).
    apply returns_iff. apply (Hkept _ Hin). }
  destruct (filter_from_all
              (type_key_stage ORTB_MAP (VObj validObject) path parent)
              (map fst validObject) 0) as [lgb Eb].
  { intros k j Hk. apply in_map_iff in Hk. destruct Hk as ([k' v] & <- & Hin).
    apply returns_iff. apply (Hkept _ Hin). cbn [get fst snd].
    rewrite (lookup_NoDup _ _ _ Hnd Hin). reflexivity. }
  destruct (reduce_from_rebuild
              (build_stage ORTB_MAP optout fuel (VObj validObject) path parent)
              validObject [] 0) as [lgc Ec].
  { exact Hnd. }
  { intros k v acc' j Hin. apply returns_iff.
    apply (Hkept _ Hin).
    - cbn [get fst snd]. rewrite (lookup_NoDup _ _ _ Hnd Hin). reflexivity.
    - cbn [snd]. pose proof (depth_prop _ _ _ Hin). lia. }
  rewrite (bind_eq _ _ _ _ Ea), (bind_eq _ _ _ _ Eb), (bind_eq _ _ _ _ Ec).
  cbn [fst snd ret app]. eexists; reflexivity.
Qed.

End Idempotence.

Section EngineIdempotence.

Variable ORTB_MAP : value.
Variable optout : value.
Hypothesis schema_ok : elements_not_arrays ORTB_MAP.

Lemma validateFpd_idempotent fpd path parent lg out :
  validateFpd ORTB_MAP optout fpd path parent = (lg, Ret out) ->
  returns (validateFpd ORTB_MAP optout out path parent) out.
Proof.
  intros H. apply returns_iff. unfold validateFpd in *.
  eapply validateFpd_idempotent_fuel; [ exact schema_ok | exact H | lia ].
Qed.

Lemma runValidations_idempotent data lg out :
  runValidations ORTB_MAP optout data = (lg, Ret out) ->
  returns (runValidations ORTB_MAP optout out) out.
Proof.
  intros H. unfold runValidations in H.
  inv_bind H. inv_bind Hk. inv_bind Hk0. inv_bind Hk. inv_bind Hk0. inv_ret Hk.
  rename a0 into global, a3 into validated.
  unfold Object_fromEntries.
  set (bidders := fold_left _ validated []).
  assert (Hb : NoDup (map fst bidders)
               /\ Forall (fun kv => returns (validateFpd ORTB_MAP optout
                                               (snd kv) "" "") (snd kv))
                         bidders).
  { apply (fromEntries_invariant
             (fun o => NoDup (map fst o) /\ Forall _ o)
             (fun kv => returns (validateFpd ORTB_MAP optout (snd kv) "" "")
                                (snd kv))).
    - intros o k v [Hnd Hall] Hkv.
      split; [ apply obj_set_NoDup | apply obj_set_Forall ]; assumption.
    - split; constructor.
    - eapply Array_map_Forall; [ | eassumption ].
      intros [bidder conf] lg' [bidder' v] _ Hv. cbn [snd].
      inv_bind Hv. inv_ret Hk.
      eapply validateFpd_idempotent; eassumption. }
  destruct Hb as [Hnd Hall]. rewrite Forall_forall in Hall.
  unfold runValidations.
  eapply returns_bind; [ apply returns_ret | ].
  eapply returns_bind; [ eapply validateFpd_idempotent; eassumption | ].
  eapply returns_bind; [ apply returns_ret | ].
  eapply returns_bind; [ apply returns_ret | ].
  change (get (VObj [("global", global); ("bidder", VObj bidders)]) "bidder")
    with (VObj bidders).
  cbn [Object_keys]. rewrite (entries_NoDup _ Hnd).
  eapply returns_bind.
  - apply Array_map_returns. intros [k v] Hin.
    eapply returns_bind; [ apply (Hall _ Hin) | apply returns_ret ].
  - unfold Object_fromEntries. rewrite fromEntries_NoDup by exact Hnd.
    apply returns_ret.
Qed.

End EngineIdempotence.

(** C8 (as the module has it).  For a schema table in which no array
    descriptor with object elements and a nested schema declares its
    elements to be arrays, the engine is idempotent: whenever
    [processFpd] returns a tree, [processFpd] applied to that tree (same
    table, storage and configuration) returns it unchanged. *)
Theorem processFpd_idempotent ORTB_MAP STORAGE fpdConf data lg out :
  elements_not_arrays ORTB_MAP ->
  snd (processFpd ORTB_MAP STORAGE fpdConf data) = (lg, Ret out) ->
  exists lg', snd (processFpd ORTB_MAP STORAGE fpdConf out) = (lg', Ret out).
Proof.
  intros Hschema H. apply returns_iff.
  unfold processFpd in *. cbn [snd] in *.
  set (optout := js_or _ _) in *. clearbody optout.
  inv_bind H. rewrite Hm.
  eapply returns_bind; [ reflexivity | ].
  destruct (negb (truthy a)).
  - eapply runValidations_idempotent; eassumption.
  - inv_ret Hk. apply returns_ret.
Qed.

Lemma elements_not_arrays_check ORTB_MAP :
  everywhere elements_not_arrays_at ORTB_MAP = true ->
  elements_not_arrays ORTB_MAP.
Proof.
  intros H path mapping Hmap HisArr Hct Hch.
  pose proof (everywhere_deepAccess elements_not_arrays_at) as Hall.
  specialize (Hall (fun u Hu => ltac:(destruct u; try discriminate; reflexivity))
                   ORTB_MAP path H).
  fold mapping in Hall. unfold elements_not_arrays_at in Hall.
  rewrite Hmap, HisArr, Hct, Hch in Hall. cbn [andb negb orb] in Hall.
  apply negb_true_iff. exact Hall.
Qed.

Lemma processFpd_idempotent_witness :
  exists lg',
    snd (processFpd Examples.required_id_table Examples.plain_storage
                    Examples.run_config Examples.mixed_output)
    = (lg', Ret Examples.mixed_output).
Proof.
  apply (processFpd_idempotent Examples.required_id_table Examples.plain_storage
           Examples.run_config Examples.mixed_data
           ["Filtered x[] value at index 0 in ortb2 data: expected type object";
            "Filtered x[] value at index 0 in ortb2 data: missing required property id"]).
  - apply elements_not_arrays_check. reflexivity.
  - reflexivity.
Defined.

(** C8, an input on which a second run changes the result.  The table
    declares an array of arrays with a nested schema; the first run
    turns the inner array [["a"]] into the object [{0: "a"}], which the
    type stage of the second run rejects, whereupon [x] is dropped as
    empty. *)
Lemma processFpd_second_run_differs :
  snd (processFpd Examples.nested_array_table Examples.plain_storage
                  Examples.run_config Examples.nested_array_data)
  = ([], Ret Examples.nested_array_output)
  /\ snd (processFpd Examples.nested_array_table Examples.plain_storage
                     Examples.run_config Examples.nested_array_output)
     = (["Filtered x[] value at index 0 in ortb2 data: expected type object";
         "Filtered x property in ortb2 data: empty data found"],
        Ret (VObj [("global", VObj []); ("bidder", VObj [])]))
  /\ VObj [("global", VObj []); ("bidder", VObj [])]
     <> Examples.nested_array_output.
Proof. repeat split; try reflexivity. discriminate. Qed.

(* ================================================================= *)
(** ** Further properties of the module *)

(** *** Monad laws and exact results *)

Lemma bind_assoc {A B C} (m : M A) (f : A -> M B) (g : B -> M C) :
  bind (bind m f) g = bind m (fun a => bind (f a) g).
Proof.
  destruct m as [l [a | | ]]; cbn; try reflexivity.
  destruct (f a) as [l' [b | | ]]; cbn; try reflexivity.
  destruct (g b) as [l'' o]. rewrite app_assoc. reflexivity.
Qed.

Lemma bind_ret_r {A} (m : M A) : bind m ret = m.
Proof.
  destruct m as [l [a | | ]]; cbn; try reflexivity.
  rewrite app_nil_r. reflexivity.
Qed.

Lemma filter_from_ret {A} (f : A -> nat -> M bool) l : forall i,
  (forall x j, In x l -> f x j = ret true) -> filter_from f l i = ret l.
Proof.
  induction l as [ | x l IH]; cbn [filter_from]; intros i H; [ reflexivity | ].
  rewrite (H x i (or_introl eq_refl)), bind_ret_l.
  rewrite IH by (intros; apply H; now right). reflexivity.
Qed.

Lemma filter_from_filter {A} (q : A -> bool) (f : A -> nat -> M bool) l :
  forall i lg l',
  (forall x j lg' b, In x l -> f x j = (lg', Ret b) -> b = q x) ->
  filter_from f l i = (lg, Ret l') -> l' = filter q l.
Proof.
  induction l as [ | x l IH]; cbn [filter_from filter]; intros i lg l' Hq H.
  - inv_ret H. reflexivity.
  - inv_bind H. inv_bind Hk. inv_ret Hk0.
    rewrite <- (Hq x i _ _ (or_introl eq_refl) Hm).
    rewrite (IH _ _ _ (fun y j lg' b Hy => Hq y j lg' b (or_intror Hy)) Hm0).
    reflexivity.
Qed.

Lemma filter_from_length {A} (f : A -> nat -> M bool) l : forall i lg l',
  filter_from f l i = (lg, Ret l') -> List.length l' <= List.length l.
Proof.
  induction l as [ | x l IH]; cbn [filter_from]; intros i lg l' H.
  - inv_ret H. reflexivity.
  - inv_bind H. inv_bind Hk. inv_ret Hk0.
    specialize (IH _ _ _ Hm0). destruct a; cbn [List.length]; lia.
Qed.

Lemma reduce_from_push_ret {A} (f : list A -> A -> nat -> M (list A)) l :
  forall acc i,
  (forall x acc' j, In x l -> f acc' x j = ret (acc' ++ [x])) ->
  reduce_from f l acc i = ret (acc ++ l).
Proof.
  induction l as [ | x l IH]; cbn [reduce_from]; intros acc i H.
  - rewrite app_nil_r. reflexivity.
  - rewrite (H x acc i (or_introl eq_refl)), bind_ret_l.
    rewrite IH by (intros; apply H; now right).
    rewrite <- app_assoc. reflexivity.
Qed.

Lemma reduce_from_pushed {A} (f : list A -> A -> nat -> M (list A)) l :
  forall acc i lg r,
  (forall x acc' j lg' acc'', In x l -> f acc' x j = (lg', Ret acc'') ->
                              acc'' = acc' ++ [x]) ->
  reduce_from f l acc i = (lg, Ret r) -> r = acc ++ l.
Proof.
  induction l as [ | x l IH]; cbn [reduce_from]; intros acc i lg r H Hr.
  - inv_ret Hr. rewrite app_nil_r. reflexivity.
  - inv_bind Hr. rewrite (H x acc i _ _ (or_introl eq_refl) Hm) in Hk.
    rewrite (IH _ _ _ _ (fun y a j l0 a' Hy => H y a j l0 a' (or_intror Hy)) Hk).
    rewrite <- app_assoc. reflexivity.
Qed.

Lemma reduce_from_length {A} (f : list A -> A -> nat -> M (list A)) l :
  forall acc i lg r,
  (forall x acc' j lg' acc'', In x l -> f acc' x j = (lg', Ret acc'') ->
                              List.length acc'' <= S (List.length acc')) ->
  reduce_from f l acc i = (lg, Ret r) ->
  List.length r <= List.length acc + List.length l.
Proof.
  induction l as [ | x l IH]; cbn [reduce_from]; intros acc i lg r H Hr.
  - inv_ret Hr. cbn. lia.
  - inv_bind Hr. pose proof (H x acc i _ _ (or_introl eq_refl) Hm).
    pose proof (IH _ _ _ _ (fun y a j l0 a' Hy => H y a j l0 a' (or_intror Hy)) Hk).
    cbn [List.length]. lia.
Qed.

Lemma reduce_from_rebuild_ret (f : list (string * value) -> string -> nat
                                   -> M (list (string * value))) props :
  forall acc i,
  NoDup (map fst acc ++ map fst props) ->
  (forall k v acc' j, In (k, v) props -> f acc' k j = ret (obj_set acc' k v)) ->
  reduce_from f (map fst props) acc i = ret (acc ++ props).
Proof.
  induction props as [ | [k v] props IH]; cbn [reduce_from map fst];
    intros acc i Hnd Hf.
  - rewrite app_nil_r. reflexivity.
  - rewrite (Hf k v acc i (or_introl eq_refl)), bind_ret_l.
    rewrite obj_set_fresh.
    2:{ intros Hin. apply NoDup_remove_2 in Hnd. apply Hnd.
        apply in_or_app. now left. }
    rewrite IH.
    + rewrite <- app_assoc. reflexivity.
    + rewrite map_app, <- app_assoc. exact Hnd.
    + intros; apply Hf; now right.
Qed.

(** *** Objects *)

Lemma lookup_obj_set_same props k v : lookup k (obj_set props k v) = Some v.
Proof.
  induction props as [ | [k' v'] props IH]; cbn [obj_set lookup].
  - rewrite String.eqb_refl. reflexivity.
  - destruct (String.eqb_spec k' k) as [-> | Hne]; cbn [lookup].
    + rewrite String.eqb_refl. reflexivity.
    + destruct (String.eqb_spec k' k); [ contradiction | assumption ].
Qed.

Lemma lookup_obj_set_other props k k' v :
  k' <> k -> lookup k (obj_set props k' v) = lookup k props.
Proof.
  intros Hne.
  induction props as [ | [k0 v0] props IH]; cbn [obj_set lookup].
  - destruct (String.eqb_spec k' k); [ contradiction | reflexivity ].
  - destruct (String.eqb_spec k0 k') as [-> | Hne0]; cbn [lookup].
    + destruct (String.eqb_spec k' k); [ contradiction | reflexivity ].
    + rewrite IH. reflexivity.
Qed.

Lemma lookup_None props k : lookup k props = None <-> ~ In k (map fst props).
Proof.
  induction props as [ | [k' v'] props IH]; cbn [lookup map fst In].
  - tauto.
  - destruct (String.eqb_spec k' k) as [-> | Hne].
    + split; [ discriminate | tauto ].
    + rewrite IH. tauto.
Qed.

Lemma lookup_get props k v : lookup k props = Some v -> get (VObj props) k = v.
Proof. cbn [get]. intros ->. reflexivity. Qed.

Lemma store_lookup_same acc k e :
  lookup k (store acc k e) = match e with Some v => Some v | None => lookup k acc end.
Proof. destruct e; cbn [store]; [ apply lookup_obj_set_same | reflexivity ]. Qed.

Lemma store_lookup_other acc k k' e :
  k' <> k -> lookup k (store acc k' e) = lookup k acc.
Proof. destruct e; cbn [store]; [ apply lookup_obj_set_other | reflexivity ]. Qed.

Lemma store_NoDup acc k e : NoDup (map fst acc) -> NoDup (map fst (store acc k e)).
Proof. destruct e; cbn [store]; [ apply obj_set_NoDup | auto ]. Qed.

(** A reduce that stores, key by key, what [entry] decides: the property
    [k] of the result is what [entry] decided for [k], when [k] was
    among the keys, and what the accumulator had otherwise. *)
Lemma reduce_from_outcomes (entry : string -> M (option value)) l :
  forall acc i lg r,
  reduce_from (fun result key (_ : nat) =>
                 e <- entry key;; ret (store result key e)) l acc i
  = (lg, Ret r) ->
  (NoDup (map fst acc) -> NoDup (map fst r))
  /\ forall k,
      (In k l ->
       exists lg' e, entry k = (lg', Ret e)
                     /\ lookup k r = match e with
                                     | Some v => Some v
                                     | None => lookup k acc
                                     end)
      /\ (~ In k l -> lookup k r = lookup k acc).
Proof.
  induction l as [ | x l IH]; cbn [reduce_from]; intros acc i lg r H.
  - inv_ret H. split; [ auto | ]. intros k. split; [ intros [] | reflexivity ].
  - inv_bind H. inv_bind Hm. inv_ret Hk0. rename a0 into e.
    destruct (IH _ _ _ _ Hk) as [Hnd Hall]. split.
    { intros Hacc. apply Hnd, store_NoDup, Hacc. }
    intros k. destruct (Hall k) as [Hin Hout].
    destruct (in_dec string_dec k l) as [Hkl | Hkl].
    + split; [ | intros Hn; exfalso; apply Hn; now right ].
      intros _. destruct (Hin Hkl) as (lg' & e' & He' & Hlook).
      exists lg', e'. split; [ assumption | ]. rewrite Hlook.
      destruct e' as [v | ]; [ reflexivity | ].
      destruct (string_dec x k) as [-> | Hne].
      * rewrite Hm0 in He'. inversion He'; subst. reflexivity.
      * apply store_lookup_other. assumption.
    + split.
      * intros [-> | Hk']; [ | contradiction ].
        eexists _, e. split; [ eassumption | ].
        rewrite (Hout Hkl). apply store_lookup_same.
      * intros Hn. rewrite (Hout Hkl). apply store_lookup_other.
        intros ->. apply Hn. now left.
Qed.

(** *** The fields of the object that [validateFpd] returns *)

Lemma build_stage_outcome ORTB_MAP optout fuel fpd path parent result key j :
  build_stage ORTB_MAP optout fuel fpd path parent result key j
  = (e <- field_outcome ORTB_MAP optout fuel fpd path parent key;;
     ret (store result key e)).
Proof.
  unfold build_stage, field_outcome. cbv zeta.
  destruct (truthy (deepAccess ORTB_MAP (path ++ key))); [ | reflexivity ].
  destruct (truthy (get (deepAccess ORTB_MAP (path ++ key)) "optoutApplies")
            && truthy optout); [ reflexivity | ].
  rewrite bind_assoc. apply bind_ext. intros _ modified _.
  destruct (negb (isEmptyData modified)); reflexivity.
Qed.

Lemma invalid_stage_value ORTB_MAP path parent key j lg b :
  invalid_stage ORTB_MAP path parent key j = (lg, Ret b) ->
  b = (negb (truthy (deepAccess ORTB_MAP (path ++ key)))
       || negb (truthy (get (deepAccess ORTB_MAP (path ++ key)) "invalid")))
      && truthy (VStr key).
Proof.
  unfold invalid_stage. cbv zeta. destruct (negb _ || negb _); intros H.
  - inv_ret H. reflexivity.
  - inv_bind H. inv_ret Hk. reflexivity.
Qed.

Lemma type_key_stage_value ORTB_MAP fpd path parent key j lg b :
  type_key_stage ORTB_MAP fpd path parent key j = (lg, Ret b) ->
  b = ((if truthy (deepAccess ORTB_MAP (path ++ key))
        then typeValidation (get fpd key)
               (mkShape (get (deepAccess ORTB_MAP (path ++ key)) "type")
                        (get (deepAccess ORTB_MAP (path ++ key)) "isArray"))
        else true)
       || negb (truthy (deepAccess ORTB_MAP (path ++ key))))
      && truthy (VStr key).
Proof.
  unfold type_key_stage. cbv zeta. destruct (_ || negb _); intros H.
  - inv_ret H. reflexivity.
  - inv_bind H. inv_ret Hk. reflexivity.
Qed.

Section Fields.

Variable ORTB_MAP : value.
Variable optout : value.

(** When [validateFpd] returns, the result is a plain object without
    repeated keys; the keys that pass the two filters hold what the
    reduce decided for them, and no other key is there. *)
Lemma validateFpd_fields fuel fpd path parent lg out :
  validateFpd_ ORTB_MAP optout (S fuel) fpd path parent = (lg, Ret out) ->
  truthy fpd = true ->
  exists props,
    out = VObj props
    /\ NoDup (map fst props)
    /\ forall k,
        (In k (Object_keys fpd) -> key_passes ORTB_MAP fpd path k = true ->
         exists lg' e,
           field_outcome ORTB_MAP optout fuel fpd path parent k = (lg', Ret e)
           /\ lookup k props = e)
        /\ (~ In k (Object_keys fpd) \/ key_passes ORTB_MAP fpd path k = false ->
            lookup k props = None).
Proof.
  intros H Hfpd. rewrite validateFpd_stages, Hfpd in H. cbn [negb] in H.
  inv_bind H. inv_bind Hk. inv_bind Hk0. inv_ret Hk.
  rename a into valid, a0 into typed, a1 into props.
  exists props. split; [ reflexivity | ].
  unfold Array_filter in Hm, Hm0.
  apply (filter_from_filter
           (fun key =>
              (negb (truthy (deepAccess ORTB_MAP (path ++ key)))
               || negb (truthy (get (deepAccess ORTB_MAP (path ++ key)) "invalid")))
              && truthy (VStr key))) in Hm;
    [ | intros; eapply invalid_stage_value; eassumption ].
  apply (filter_from_filter
           (fun key =>
              ((if truthy (deepAccess ORTB_MAP (path ++ key))
                then typeValidation (get fpd key)
                       (mkShape (get (deepAccess ORTB_MAP (path ++ key)) "type")
                                (get (deepAccess ORTB_MAP (path ++ key)) "isArray"))
                else true)
               || negb (truthy (deepAccess ORTB_MAP (path ++ key))))
              && truthy (VStr key))) in Hm0;
    [ | intros; eapply type_key_stage_value; eassumption ].
  assert (Htyped : forall k, In k typed <->
                             In k (Object_keys fpd)
                             /\ key_passes ORTB_MAP fpd path k = true).
  { intros k. subst typed valid. rewrite !filter_In. unfold key_passes.
    cbv zeta.
    destruct (truthy (deepAccess ORTB_MAP (path ++ k)));
      destruct (truthy (get (deepAccess ORTB_MAP (path ++ k)) "invalid"));
      destruct (typeValidation (get fpd k) _);
      destruct (truthy (VStr k)); cbn; intuition congruence. }
  unfold Array_reduce in Hm1.
  rewrite (reduce_from_ext _
             (fun result key (_ : nat) =>
                e <- field_outcome ORTB_MAP optout fuel fpd path parent key;;
                ret (store result key e))) in Hm1
    by (intros; apply build_stage_outcome).
  apply reduce_from_outcomes in Hm1. destruct Hm1 as [Hnd Hall].
  split; [ apply Hnd; constructor | ].
  intros k. destruct (Hall k) as [Hin Hout]. split.
  - intros Hk Hpass. destruct (Hin (proj2 (Htyped k) (conj Hk Hpass)))
      as (lg' & e & He & Hlook).
    exists lg', e. split; [ assumption | ]. rewrite Hlook.
    destruct e; reflexivity.
  - intros Hno. rewrite Hout; [ reflexivity | ].
    intros Hk. apply Htyped in Hk. destruct Hk as [Hk Hpass].
    destruct Hno as [Hno | Hno]; [ contradiction | congruence ].
Qed.

Lemma modified_value_typed fuel mapping v path parent key lg modified :
  typeValidation v (mkShape (get mapping "type") (get mapping "isArray")) = true ->
  modified_value ORTB_MAP optout fuel mapping v path parent key
  = (lg, Ret modified) ->
  typeValidation modified (mkShape (get mapping "type") (get mapping "isArray"))
  = true.
Proof.
  intros Htype H. unfold modified_value in H.
  destruct (strict_eq_str (get mapping "type") "object"
            && negb (truthy (get mapping "isArray"))) eqn:Eobj.
  { destruct (validateFpd_returns_object _ _ _ _ _ _ _ _ H) as [props ->].
    apply andb_prop in Eobj. destruct Eobj as [Hty HisArr].
    rewrite (strict_eq_str_true _ _ Hty). apply typeValidation_object.
    apply negb_true_iff in HisArr. rewrite HisArr. auto. }
  destruct (truthy (get mapping "isArray") && truthy (get mapping "childType")).
  { destruct (filterArrayData_with_returns_array _ _ _ _ _ _ _ _ H)
      as [[elems ->] [elems' ->]].
    destruct (typeValidation_cases _ _ _ Htype) as [Hsc | [Hty Hia]];
      [ discriminate | ].
    rewrite (strict_eq_str_true _ _ Hty). apply typeValidation_object. auto. }
  inv_ret H. assumption.
Qed.

End Fields.

Lemma keys_truthy fpd k : In k (Object_keys fpd) -> truthy fpd = true.
Proof.
  destruct fpd as [ | | b | n | s | elems | props ]; cbn; try tauto.
  destruct s; cbn; tauto.
Qed.

Lemma key_passes_nonempty ORTB_MAP fpd path k :
  key_passes ORTB_MAP fpd path k = true -> k <> "".
Proof.
  unfold key_passes. cbv zeta. intros H. apply andb_prop in H.
  destruct H as [H _]. intros ->. discriminate H.
Qed.

Lemma truthy_key k : k <> "" -> truthy (VStr k) = true.
Proof. destruct k; [ congruence | reflexivity ]. Qed.

Section ObjectFilter.

Variable ORTB_MAP : value.
Variable optout : value.

(** The keys of the object that [validateFpd] returns. *)
Lemma validateFpd_result_keys fpd path parent lg out :
  validateFpd ORTB_MAP optout fpd path parent = (lg, Ret out) ->
  exists props,
    out = VObj props
    /\ NoDup (map fst props)
    /\ forall k, In k (map fst props) -> In k (Object_keys fpd) /\ k <> "".
Proof.
  intros H. unfold validateFpd in H.
  destruct (truthy fpd) eqn:Hfpd.
  - destruct (validateFpd_fields _ _ _ _ _ _ _ _ H Hfpd)
      as (props & -> & Hnd & Hall).
    exists props. split; [ reflexivity | split; [ assumption | ] ].
    intros k Hk. destruct (Hall k) as [_ Hout].
    destruct (in_dec string_dec k (Object_keys fpd)) as [Hin | Hin].
    + split; [ assumption | ].
      destruct (key_passes ORTB_MAP fpd path k) eqn:Hpass.
      * eapply key_passes_nonempty; eassumption.
      * exfalso. revert Hk. apply lookup_None. auto.
    + exfalso. revert Hk. apply lookup_None. auto.
  - rewrite validateFpd_stages, Hfpd in H. inv_ret H.
    exists []. split; [ reflexivity | split; [ constructor | intros k [] ] ].
Qed.

(** X3.  Whatever its argument, [validateFpd] returns a plain object; no
    key occurs twice in it, every key is an own key of the argument, and
    the empty string is not among them. *)
Theorem validateFpd_keys fpd path parent lg out :
  validateFpd ORTB_MAP optout fpd path parent = (lg, Ret out) ->
  exists props,
    out = VObj props
    /\ NoDup (map fst props)
    /\ forall k, In k (map fst props) -> In k (Object_keys fpd) /\ k <> "".
Proof. apply validateFpd_result_keys. Qed.

(** X4.  A value without own keys (a falsy value, a number, a boolean, an
    empty object or array) is filtered to [{}] without any diagnostic. *)
Theorem validateFpd_no_keys fpd path parent :
  Object_keys fpd = [] ->
  validateFpd ORTB_MAP optout fpd path parent = ([], Ret (VObj [])).
Proof.
  intros H. unfold validateFpd. rewrite validateFpd_stages, H.
  destruct (negb (truthy fpd)); reflexivity.
Qed.

(** X5.  A property that has no descriptor is kept with the value it
    had, unless its name is the empty string.  (The name is not
    [__proto__], and the lookup of its descriptor reads own properties
    of the table only, so that it finds nothing that objects
    inherit.) *)
Theorem validateFpd_keeps_unmapped fpd path parent lg out k :
  validateFpd ORTB_MAP optout fpd path parent = (lg, Ret out) ->
  In k (Object_keys fpd) -> k <> "" -> k <> "__proto__" ->
  reads_own ORTB_MAP (path ++ k) = true ->
  truthy (deepAccess ORTB_MAP (path ++ k)) = false ->
  get out k = get fpd k.
Proof.
  intros H Hk Hne _ _ Hmap. unfold validateFpd in H.
  destruct (validateFpd_fields _ _ _ _ _ _ _ _ H (keys_truthy _ _ Hk))
    as (props & -> & _ & Hall).
  destruct (Hall k) as [Hin _].
  destruct (Hin Hk) as (lg' & e & He & Hlook).
  { unfold key_passes. cbv zeta. rewrite Hmap, (truthy_key _ Hne). reflexivity. }
  unfold field_outcome in He. cbv zeta in He. rewrite Hmap in He.
  injection He as _ He. subst e. apply lookup_get. assumption.
Qed.

(** X6.  A property whose descriptor is marked invalid, whose value fails
    the type check of its descriptor, or whose descriptor carries
    [optoutApplies] while the opt-out flag is set, is not in the
    result. *)
Theorem validateFpd_drops fpd path parent lg out k :
  validateFpd ORTB_MAP optout fpd path parent = (lg, Ret out) ->
  truthy (deepAccess ORTB_MAP (path ++ k)) = true ->
  truthy (get (deepAccess ORTB_MAP (path ++ k)) "invalid") = true
  \/ typeValidation (get fpd k)
       (mkShape (get (deepAccess ORTB_MAP (path ++ k)) "type")
                (get (deepAccess ORTB_MAP (path ++ k)) "isArray")) = false
  \/ truthy (get (deepAccess ORTB_MAP (path ++ k)) "optoutApplies")
     && truthy optout = true ->
  ~ In k (Object_keys out).
Proof.
  intros H Hmap Hdrop. unfold validateFpd in H.
  destruct (truthy fpd) eqn:Hfpd.
  2:{ rewrite validateFpd_stages, Hfpd in H. inv_ret H. intros []. }
  destruct (validateFpd_fields _ _ _ _ _ _ _ _ H Hfpd)
    as (props & -> & _ & Hall).
  cbn [Object_keys]. apply lookup_None.
  destruct (Hall k) as [Hin Hout].
  destruct (in_dec string_dec k (Object_keys fpd)) as [Hk | Hk]; [ | auto ].
  destruct (key_passes ORTB_MAP fpd path k) eqn:Hpass; [ | auto ].
  destruct (Hin Hk eq_refl) as (lg' & e & He & ->).
  unfold key_passes in Hpass. cbv zeta in Hpass. rewrite Hmap in Hpass.
  cbn [negb orb] in Hpass.
  apply andb_prop in Hpass. destruct Hpass as [_ Hpass].
  apply andb_prop in Hpass. destruct Hpass as [Hinv Hty].
  apply negb_true_iff in Hinv.
  destruct Hdrop as [Hd | [Hd | Hd]]; [ congruence | congruence | ].
  unfold field_outcome in He. cbv zeta in He. rewrite Hmap, Hd in He.
  inv_bind He. inv_ret Hk0. reflexivity.
Qed.

(** X7.  A property that is in the result and has a descriptor is not
    marked invalid, is not redacted, holds a value that passes the type
    check of the descriptor, and is not empty. *)
Theorem validateFpd_kept_sound fpd path parent lg out k :
  validateFpd ORTB_MAP optout fpd path parent = (lg, Ret out) ->
  In k (Object_keys out) ->
  truthy (deepAccess ORTB_MAP (path ++ k)) = true ->
  truthy (get (deepAccess ORTB_MAP (path ++ k)) "invalid") = false
  /\ truthy (get (deepAccess ORTB_MAP (path ++ k)) "optoutApplies")
     && truthy optout = false
  /\ typeValidation (get out k)
       (mkShape (get (deepAccess ORTB_MAP (path ++ k)) "type")
                (get (deepAccess ORTB_MAP (path ++ k)) "isArray")) = true
  /\ isEmptyData (get out k) = false.
Proof.
  intros H Hk Hmap. unfold validateFpd in H.
  destruct (truthy fpd) eqn:Hfpd.
  2:{ rewrite validateFpd_stages, Hfpd in H. inv_ret H. destruct Hk. }
  destruct (validateFpd_fields _ _ _ _ _ _ _ _ H Hfpd)
    as (props & -> & _ & Hall).
  cbn [Object_keys] in Hk. destruct (Hall k) as [Hin Hout].
  destruct (in_dec string_dec k (Object_keys fpd)) as [Hkin | Hkin];
    [ | exfalso; revert Hk; apply lookup_None; auto ].
  destruct (key_passes ORTB_MAP fpd path k) eqn:Hpass;
    [ | exfalso; revert Hk; apply lookup_None; auto ].
  destruct (Hin Hkin eq_refl) as (lg' & e & He & Hlook).
  destruct e as [v | ]; [ | exfalso; revert Hk; apply lookup_None; assumption ].
  rewrite (lookup_get _ _ _ Hlook).
  unfold key_passes in Hpass. cbv zeta in Hpass. rewrite Hmap in Hpass.
  cbn [negb orb] in Hpass.
  apply andb_prop in Hpass. destruct Hpass as [_ Hpass].
  apply andb_prop in Hpass. destruct Hpass as [Hinv Hty].
  apply negb_true_iff in Hinv.
  unfold field_outcome in He. cbv zeta in He. rewrite Hmap in He.
  destruct (truthy (get (deepAccess ORTB_MAP (path ++ k)) "optoutApplies")
            && truthy optout); [ inv_bind He; inv_ret Hk0 | ].
  inv_bind He. rename a into modified.
  destruct (isEmptyData modified) eqn:Eempty; cbn [negb] in Hk0;
    [ inv_bind Hk0; inv_ret Hk1 | inv_ret Hk0 ].
  repeat split; try assumption.
  eapply modified_value_typed; eassumption.
Qed.




(** X10.  A property that passes the filters, is not redacted, and whose
    descriptor asks for [filterArrayData] ([isArray] with a
    [childType], and not a nested object) although its value is not an
    array, makes [validateFpd] end in a [TypeError]. *)
Theorem validateFpd_raises_on_non_array fpd path parent k :
  In k (Object_keys fpd) ->
  key_passes ORTB_MAP fpd path k = true ->
  truthy (deepAccess ORTB_MAP (path ++ k)) = true ->
  truthy (get (deepAccess ORTB_MAP (path ++ k)) "optoutApplies")
  && truthy optout = false ->
  strict_eq_str (get (deepAccess ORTB_MAP (path ++ k)) "type") "object"
  && negb (truthy (get (deepAccess ORTB_MAP (path ++ k)) "isArray")) = false ->
  truthy (get (deepAccess ORTB_MAP (path ++ k)) "isArray")
  && truthy (get (deepAccess ORTB_MAP (path ++ k)) "childType") = true ->
  Array_isArray (get fpd k) = false ->
  snd (validateFpd ORTB_MAP optout fpd path parent) = TypeError.
Proof.
  intros Hk Hpass Hmap Hopt Hobj Harr Hnot.
  destruct (validateFpd ORTB_MAP optout fpd path parent) as [lg [out | | ]] eqn:H;
    [ | reflexivity | ].
  - exfalso. unfold validateFpd in H.
    destruct (validateFpd_fields _ _ _ _ _ _ _ _ H (keys_truthy _ _ Hk))
      as (props & -> & _ & Hall).
    destruct (Hall k) as [Hin _].
    destruct (Hin Hk Hpass) as (lg' & e & He & _).
    unfold field_outcome, modified_value in He. cbv zeta in He.
    rewrite Hmap, Hopt, Hobj, Harr in He.
    destruct (get fpd k); try discriminate He. discriminate Hnot.
  - exfalso. pose proof (validateFpd_terminates ORTB_MAP optout fpd path parent) as Hfin.
    unfold finishes in Hfin. rewrite H in Hfin. apply Hfin. reflexivity.
Qed.

(** X11.  On data for which the table has no descriptor at all, [validateFpd]
    is the identity and logs nothing (the object has no repeated key and
    no property named by the empty string or by [__proto__], and the
    lookup of each descriptor reads own properties of the table only, so
    that it finds nothing that objects inherit). *)
Theorem validateFpd_identity_unmapped props path parent :
  NoDup (map fst props) ->
  ~ In "" (map fst props) ->
  ~ In "__proto__" (map fst props) ->
  (forall k, In k (map fst props) ->
             reads_own ORTB_MAP (path ++ k) = true
             /\ truthy (deepAccess ORTB_MAP (path ++ k)) = false) ->
  validateFpd ORTB_MAP optout (VObj props) path parent = ([], Ret (VObj props)).
Proof.
  intros Hnd Hne _ Hown.
  assert (Hun : forall k, In k (map fst props) ->
                          truthy (deepAccess ORTB_MAP (path ++ k)) = false)
    by (intros k Hk; apply (Hown k Hk)).
  clear Hown. unfold validateFpd. rewrite validateFpd_stages.
  cbn [truthy negb Object_keys]. unfold Array_filter, Array_reduce.
  assert (Hkey : forall k, In k (map fst props) -> truthy (VStr k) = true).
  { intros k Hk. apply truthy_key. intros ->. contradiction. }
  rewrite filter_from_ret, bind_ret_l.
  2:{ intros k j Hk. unfold invalid_stage. cbv zeta.
      rewrite (Hun k Hk), (Hkey k Hk). reflexivity. }
  rewrite filter_from_ret, bind_ret_l.
  2:{ intros k j Hk. unfold type_key_stage. cbv zeta.
      rewrite (Hun k Hk), (Hkey k Hk). reflexivity. }
  rewrite (reduce_from_rebuild_ret _ props [] 0), bind_ret_l.
  - reflexivity.
  - exact Hnd.
  - intros k v acc' j Hin. unfold build_stage. cbv zeta.
    rewrite (Hun k (in_map fst _ _ Hin)). cbn [get].
    rewrite (lookup_NoDup _ _ _ Hnd Hin). reflexivity.
Qed.

End ObjectFilter.

(** X12.  The opt-out flag matters through its truthiness only. *)
Theorem validateFpd_optout_truthiness ORTB_MAP optout1 optout2 fpd path parent :
  truthy optout1 = truthy optout2 ->
  validateFpd ORTB_MAP optout1 fpd path parent
  = validateFpd ORTB_MAP optout2 fpd path parent.
Proof.
  intros Hopt. unfold validateFpd. generalize (S (depth fpd)) as fuel.
  intros fuel. revert fpd path parent.
  induction fuel as [ | fuel IH]; intros fpd path parent; [ reflexivity | ].
  rewrite !validateFpd_stages.
  destruct (negb (truthy fpd)); [ reflexivity | ].
  apply bind_ext. intros _ valid _. apply bind_ext. intros _ typed _.
  f_equal. apply reduce_from_ext. intros acc key j _.
  unfold build_stage. cbv zeta. rewrite Hopt.
  destruct (truthy (deepAccess ORTB_MAP (path ++ key))); [ | reflexivity ].
  destruct (_ && truthy optout2); [ reflexivity | ].
  f_equal. unfold modified_value.
  destruct (strict_eq_str _ "object" && negb _); [ apply IH | ].
  destruct (truthy _ && truthy _); [ | reflexivity ].
  destruct (get fpd key); try reflexivity.
  apply filterArrayData_with_ext. intros; apply IH.
Qed.

(** *** Required fields, continued *)


Lemma getRequiredData_value obj keys parent i lg b :
  getRequiredData obj (VArr keys) parent i = (lg, Ret b) ->
  b = forallb (present obj) keys.
Proof.
  destruct (nullish obj) eqn:Hn.
  - destruct keys as [ | k keys].
    + cbn. intros H. inv_ret H. reflexivity.
    + destruct obj; try discriminate; cbn; discriminate.
  - rewrite getRequiredData_defined by assumption.
    intros H; inversion H; reflexivity.
Qed.


(** *** Array filter, continued *)

Lemma type_stage_value child parent x j lg b :
  type_stage child parent x j = (lg, Ret b) -> b = type_ok child x.
Proof.
  unfold type_stage, type_ok. cbv zeta.
  destruct (typeValidation x _ && Bool.eqb _ _); intros H.
  - inv_ret H. reflexivity.
  - inv_bind H. inv_ret Hk. reflexivity.
Qed.

Lemma required_stage_value ORTB_MAP path parent x j lg b :
  required_stage ORTB_MAP path parent x j = (lg, Ret b) ->
  b = required_ok ORTB_MAP path x.
Proof.
  unfold required_stage, required_ok. cbv zeta.
  destruct (truthy (deepAccess ORTB_MAP path)
            && truthy (get (deepAccess ORTB_MAP path) "required")); intros H.
  - inv_bind H. inv_ret Hk.
    destruct (get (deepAccess ORTB_MAP path) "required"); try discriminate.
    eapply getRequiredData_value; eassumption.
  - inv_ret H. reflexivity.
Qed.

Ltac inv_rets :=
  repeat match goal with H : ret _ = (_, Ret _) |- _ => inv_ret H end.

Ltac inv_binds :=
  repeat match goal with H : bind _ _ = (_, Ret _) |- _ => inv_bind H end.

Section ArrayFilterMore.

Variable ORTB_MAP : value.
Variable optout : value.

(** X15.  With the element type [string], or with the element type
    [object] when the descriptor at [path] declares no [children], the
    array that [filterArrayData] returns consists of the elements of the
    input that pass the type stage and the required stage, unchanged
    and in their order. *)
Theorem filterArrayData_keeps_verbatim elems child path parent lg out :
  strict_eq_str (type child) "string" = true
  \/ (strict_eq_str (type child) "object" = true
      /\ truthy (deepAccess ORTB_MAP path)
         && truthy (get (deepAccess ORTB_MAP path) "children") = false) ->
  filterArrayData ORTB_MAP optout (VArr elems) child path parent
  = (lg, Ret out) ->
  out = VArr (filter (required_ok ORTB_MAP path) (filter (type_ok child) elems)).
Proof.
  intros Hcase H. unfold filterArrayData in H.
  rewrite filterArrayData_with_stages in H.
  inv_bind H. inv_bind Hk. inv_bind Hk0. inv_ret Hk.
  rename a into typed, a0 into complete, a1 into arr'.
  apply (filter_from_filter (type_ok child)) in Hm;
    [ | intros; eapply type_stage_value; eassumption ].
  apply (filter_from_filter (required_ok ORTB_MAP path)) in Hm0;
    [ | intros; eapply required_stage_value; eassumption ].
  apply reduce_from_pushed in Hm1.
  - subst. reflexivity.
  - intros x acc' j lg' acc'' _ Hstep. unfold shape_stage in Hstep.
    cbv zeta in Hstep.
    destruct Hcase as [Hs | [Ho Hch]].
    + rewrite Hs, bind_ret_l in Hstep. inv_ret Hstep. reflexivity.
    + rewrite (strict_eq_str_true _ _ Ho) in Hstep. cbn [strict_eq_str] in Hstep.
      change ("object" =? "string")%string with false in Hstep.
      change ("object" =? "object")%string with true in Hstep.
      rewrite Hch, bind_ret_l in Hstep. inv_ret Hstep. reflexivity.
Qed.

(** X16.  For an array of strings whose descriptor declares no [required]
    list, [filterArrayData] returns the strings of the input in their
    order, and warns once for every other element, naming the index the
    element has in the input. *)
Theorem filterArrayData_strings elems isArr path parent :
  truthy isArr = false ->
  truthy (deepAccess ORTB_MAP path)
  && truthy (get (deepAccess ORTB_MAP path) "required") = false ->
  filterArrayData ORTB_MAP optout (VArr elems) (mkShape (VStr "string") isArr)
                  path parent
  = (map (fun i => type_stage_warning parent i (VStr "string"))
         (rejected_indices is_string elems 0),
     Ret (VArr (filter is_string elems))).
Proof.
  intros HisArr Hreq. unfold filterArrayData.
  rewrite filterArrayData_with_stages. unfold Array_filter, Array_reduce.
  rewrite (filter_from_log is_string
             (fun i => type_stage_warning parent i (VStr "string"))).
  2:{ intros x j _. unfold type_stage, type_stage_warning, is_string.
      cbv zeta. cbn [type isArray]. rewrite HisArr.
      destruct x; reflexivity. }
  cbn [bind]. rewrite filter_from_ret, bind_ret_l.
  2:{ intros x j _. unfold required_stage. cbv zeta. rewrite Hreq. reflexivity. }
  rewrite reduce_from_push_ret, bind_ret_l.
  2:{ intros x acc' j _. reflexivity. }
  cbn. rewrite app_nil_r. reflexivity.
Qed.

(** X17.  [filterArrayData] never returns more elements than it was
    given. *)
Theorem filterArrayData_length elems child path parent lg out :
  filterArrayData ORTB_MAP optout (VArr elems) child path parent
  = (lg, Ret out) ->
  exists kept, out = VArr kept /\ List.length kept <= List.length elems.
Proof.
  intros H. unfold filterArrayData in H.
  rewrite filterArrayData_with_stages in H.
  inv_bind H. inv_bind Hk. inv_bind Hk0. inv_ret Hk.
  rename a into typed, a0 into complete, a1 into arr'.
  exists arr'. split; [ reflexivity | ].
  apply filter_from_length in Hm, Hm0.
  apply reduce_from_length in Hm1; [ cbn [List.length] in Hm1; lia | ].
  intros x acc' j lg' acc'' _ Hstep. unfold shape_stage in Hstep.
  cbv zeta in Hstep. inv_bind Hstep. destruct a as [result' typeBool].
  assert (List.length result' <= S (List.length acc')).
  { destruct (strict_eq_str (type child) "string").
    { inv_rets. rewrite length_app. cbn. lia. }
    destruct (strict_eq_str (type child) "object"); [ | inv_rets; lia ].
    destruct (_ && _); [ | inv_rets; rewrite length_app; cbn; lia ].
    inv_binds. destruct (0 <? _)%nat; [ | inv_rets; lia ].
    inv_binds.
    match goal with
    | Hr : (if ?b then _ else _) = (_, Ret (result', _)) |- _ => destruct b
    end; inv_rets; [ | lia ].
    rewrite length_app. cbn. lia. }
  destruct (negb typeBool); inv_binds; inv_rets; assumption.
Qed.

(** X18.  With the element type [object] and a descriptor at [path] that
    declares [children], every element of the array that
    [filterArrayData] returns is a plain object with at least one
    property: an element that [validateFpd] empties is dropped. *)
Theorem filterArrayData_elements_nonempty elems child path parent lg out :
  strict_eq_str (type child) "object" = true ->
  truthy (deepAccess ORTB_MAP path)
  && truthy (get (deepAccess ORTB_MAP path) "children") = true ->
  filterArrayData ORTB_MAP optout (VArr elems) child path parent
  = (lg, Ret out) ->
  exists kept,
    out = VArr kept
    /\ Forall (fun e => exists props, e = VObj props /\ props <> []) kept.
Proof.
  intros Hobj Hch H. unfold filterArrayData in H.
  rewrite filterArrayData_with_stages in H.
  inv_bind H. inv_bind Hk. inv_bind Hk0. inv_ret Hk.
  rename a into typed, a0 into complete, a1 into arr'.
  exists arr'. split; [ reflexivity | ].
  unfold Array_reduce in Hm1. revert Hm1.
  apply (reduce_from_invariant
           (Forall (fun e => exists props, e = VObj props /\ props <> [])));
    [ | constructor ].
  intros acc x j lg' acc' _ Hacc Hstep. unfold shape_stage in Hstep.
  cbv zeta in Hstep. rewrite (strict_eq_str_true _ _ Hobj) in Hstep.
  cbn [strict_eq_str] in Hstep.
  change ("object" =? "string")%string with false in Hstep.
  change ("object" =? "object")%string with true in Hstep.
  rewrite Hch in Hstep.
  inv_bind Hstep. destruct a as [result' typeBool].
  assert (Forall (fun e => exists props, e = VObj props /\ props <> []) result').
  { inv_binds.
    match goal with
    | Hv : validateFpd _ _ _ _ _ = _ |- _ =>
        destruct (validateFpd_result_keys _ _ _ _ _ _ _ Hv) as (props & -> & _)
    end.
    destruct (0 <? _)%nat eqn:Ekeys; [ | inv_rets; assumption ].
    inv_binds.
    match goal with
    | Hr : (if ?b then _ else _) = (_, Ret (result', _)) |- _ => destruct b
    end; inv_rets; [ | assumption ].
    apply Forall_app. split; [ assumption | ].
    constructor; [ | constructor ]. exists props. split; [ reflexivity | ].
    intros ->. discriminate Ekeys. }
  destruct (negb typeBool); inv_binds; inv_rets; assumption.
Qed.

(** *** Entry point, continued *)

(** X20.  [runValidations] ends in a [TypeError] when [data], or its
    property [bidder], is [undefined] or [null]. *)
Theorem runValidations_raises data :
  nullish data = true \/ nullish (get data "bidder") = true ->
  snd (runValidations ORTB_MAP optout data) = TypeError.
Proof.
  intros H. unfold runValidations.
  destruct (nullish data) eqn:Hd.
  { destruct data; try discriminate; reflexivity. }
  destruct H as [H | H]; [ discriminate | ].
  rewrite !(get_m_defined _ _ Hd), bind_ret_l.
  pose proof (validateFpd_terminates ORTB_MAP optout (get data "global") "" "")
    as Hfin.
  destruct (validateFpd ORTB_MAP optout (get data "global") "" "")
    as [lg [g | | ]]; cbn [bind]; [ | reflexivity | exfalso; apply Hfin; reflexivity ].
  rewrite bind_ret_l.
  destruct (get data "bidder"); try discriminate; reflexivity.
Qed.

Lemma Array_map_keys (f : string * value -> M (string * value)) l : forall lg l',
  (forall x lg' y, In x l -> f x = (lg', Ret y) -> fst y = fst x) ->
  Array_map f l = (lg, Ret l') -> map fst l' = map fst l.
Proof.
  induction l as [ | x l IH]; cbn [Array_map]; intros lg l' Hf H.
  - inv_ret H. reflexivity.
  - inv_bind H. inv_bind Hk. inv_ret Hk0. cbn [map].
    rewrite (Hf x _ _ (or_introl eq_refl) Hm).
    rewrite (IH _ _ (fun y lg' z Hy => Hf y lg' z (or_intror Hy)) Hm0).
    reflexivity.
Qed.

(** X21.  When [runValidations] returns, the result has the two
    properties [global] and [bidder] and no other; [global] and every
    bidder hold a plain object, and (the bidder names not being
    repeated) the bidders of the result are the bidders of the input,
    in their order: a bidder is never dropped, even when its data is
    filtered down to [{}]. *)
Theorem runValidations_shape data lg out :
  runValidations ORTB_MAP optout data = (lg, Ret out) ->
  exists global bidders,
    out = VObj [("global", VObj global); ("bidder", VObj bidders)]
    /\ Forall (fun b => exists props, snd b = VObj props) bidders
    /\ (NoDup (Object_keys (get data "bidder")) ->
        map fst bidders = Object_keys (get data "bidder")).
Proof.
  intros H. unfold runValidations in H.
  inv_bind H. inv_bind Hk. inv_bind Hk0. inv_bind Hk. inv_bind Hk0. inv_ret Hk.
  rename a into g, a0 into global, a1 into b, a2 into entries, a3 into validated.
  destruct (validateFpd_result_keys _ _ _ _ _ _ _ Hm0) as (gprops & -> & _).
  assert (Hb : b = get data "bidder").
  { destruct data; cbn in Hm1; try discriminate; inv_ret Hm1; reflexivity. }
  assert (He : entries = map (fun k => (k, get b k)) (Object_keys b)).
  { destruct b; cbn in Hm2; try discriminate; inv_ret Hm2; reflexivity. }
  assert (Hkeys : map fst validated = Object_keys b).
  { erewrite Array_map_keys; [ | | eassumption ].
    - subst entries. rewrite map_map. cbn [fst]. apply map_id.
    - intros [bidder conf] lg' y _ Hy. inv_bind Hy. inv_ret Hk. reflexivity. }
  assert (Hobjs : Forall (fun e => exists props, snd e = VObj props) validated).
  { eapply Array_map_Forall; [ | eassumption ].
    intros [bidder conf] lg' y _ Hy. inv_bind Hy. inv_ret Hk. cbn [snd].
    destruct (validateFpd_result_keys _ _ _ _ _ _ _ Hm4) as (props & -> & _). eauto. }
  unfold Object_fromEntries. eexists gprops, _. split; [ reflexivity | split ].
  - apply (fromEntries_invariant
             (Forall (fun e => exists props, snd e = VObj props))
             (fun e => exists props, snd e = VObj props)).
    + intros o k v Ho Hv. apply obj_set_Forall; assumption.
    + constructor.
    + assumption.
  - intros Hnd. rewrite <- Hb in Hnd. rewrite <- Hkeys in Hnd.
    rewrite fromEntries_NoDup by exact Hnd.
    rewrite app_nil_l, Hkeys, Hb. reflexivity.
Qed.

End ArrayFilterMore.

(** *** Depth of the descent *)

(** X23.  The descent of [validateFpd] goes no deeper than its argument
    is nested: with any amount of fuel above the depth of the argument
    it does not run out of fuel, and it yields what the exported
    function yields. *)
Theorem validateFpd_depth_bound ORTB_MAP optout fuel fpd path parent :
  depth fpd < fuel ->
  finishes (validateFpd_ ORTB_MAP optout fuel fpd path parent)
  /\ validateFpd_ ORTB_MAP optout fuel fpd path parent
     = validateFpd ORTB_MAP optout fpd path parent.
Proof.
  intros H. split.
  - apply validateFpd_finishes. assumption.
  - apply validateFpd_enough_fuel. assumption.
Qed.

(** *** How the object filter composes *)

Section Composition.

Variable ORTB_MAP : value.
Variable optout : value.



End Composition.

(** *** Diagnostics do not steer the traversal *)

Lemma bind_snd {A B} (m1 m2 : M A) (f g : A -> M B) :
  snd m1 = snd m2 -> (forall a, snd (f a) = snd (g a)) ->
  snd (bind m1 f) = snd (bind m2 g).
Proof.
  destruct m1 as [l1 o1], m2 as [l2 o2]. cbn [snd]. intros -> Hf.
  destruct o2 as [a | | ]; cbn; try reflexivity.
  specialize (Hf a). destruct (f a), (g a). exact Hf.
Qed.

Lemma filter_from_snd {A} (f g : A -> nat -> M bool) l : forall i i',
  (forall x j j', snd (f x j) = snd (g x j')) ->
  snd (filter_from f l i) = snd (filter_from g l i').
Proof.
  induction l as [ | x l IH]; cbn [filter_from]; intros i i' H;
    [ reflexivity | ].
  apply bind_snd; [ apply H | intros b ].
  apply bind_snd; [ apply IH, H | reflexivity ].
Qed.

Lemma reduce_from_snd {A R} (f g : R -> A -> nat -> M R) l : forall acc i i',
  (forall acc' x j j', snd (f acc' x j) = snd (g acc' x j')) ->
  snd (reduce_from f l acc i) = snd (reduce_from g l acc i').
Proof.
  induction l as [ | x l IH]; cbn [reduce_from]; intros acc i i' H;
    [ reflexivity | ].
  apply bind_snd; [ apply H | intros a; apply IH, H ].
Qed.

Lemma getRequiredData_snd obj required parent parent' i i' :
  snd (getRequiredData obj required parent i)
  = snd (getRequiredData obj required parent' i').
Proof.
  unfold getRequiredData. destruct required; try reflexivity.
  apply reduce_from_snd. intros check key j j'.
  apply bind_snd; [ reflexivity | intros v ].
  destruct (negb (truthy v) || isEmptyData v); reflexivity.
Qed.

Section Labels.

Variable ORTB_MAP : value.
Variable optout : value.

Lemma filterArrayData_with_snd validate1 validate2 arr child path parent parent' :
  (forall x p q q', snd (validate1 x p q) = snd (validate2 x p q')) ->
  snd (filterArrayData_with ORTB_MAP validate1 arr child path parent)
  = snd (filterArrayData_with ORTB_MAP validate2 arr child path parent').
Proof.
  intros Hv. destruct arr; try reflexivity.
  rewrite !filterArrayData_with_stages. unfold Array_filter, Array_reduce.
  apply bind_snd.
  { apply filter_from_snd. intros x j j'. unfold type_stage. cbv zeta.
    destruct (_ && _); reflexivity. }
  intros typed. apply bind_snd.
  { apply filter_from_snd. intros x j j'. unfold required_stage. cbv zeta.
    apply bind_snd; [ | reflexivity ].
    destruct (_ && _); [ apply getRequiredData_snd | reflexivity ]. }
  intros complete. apply bind_snd; [ | reflexivity ].
  apply reduce_from_snd. intros acc x j j'. unfold shape_stage. cbv zeta.
  apply bind_snd.
  - destruct (strict_eq_str (type child) "string"); [ reflexivity | ].
    destruct (strict_eq_str (type child) "object"); [ | reflexivity ].
    destruct (_ && _); [ | reflexivity ].
    apply bind_snd; [ apply Hv | intros validObject ].
    destruct (0 <? _)%nat; [ | reflexivity ].
    apply bind_snd; [ apply getRequiredData_snd | intros [ | ]; reflexivity ].
  - intros [result' typeBool]. destruct (negb typeBool); reflexivity.
Qed.

Lemma validateFpd_snd fuel : forall fpd path parent parent',
  snd (validateFpd_ ORTB_MAP optout fuel fpd path parent)
  = snd (validateFpd_ ORTB_MAP optout fuel fpd path parent').
Proof.
  induction fuel as [ | fuel IH]; intros fpd path parent parent';
    [ reflexivity | ].
  rewrite !validateFpd_stages.
  destruct (negb (truthy fpd)); [ reflexivity | ].
  unfold Array_filter, Array_reduce. apply bind_snd.
  { apply filter_from_snd. intros key j j'. unfold invalid_stage. cbv zeta.
    destruct (negb _ || negb _); reflexivity. }
  intros valid. apply bind_snd.
  { apply filter_from_snd. intros key j j'. unfold type_key_stage. cbv zeta.
    destruct (_ || negb _); reflexivity. }
  intros typed. apply bind_snd; [ | reflexivity ].
  apply reduce_from_snd. intros acc key j j'. unfold build_stage. cbv zeta.
  destruct (truthy (deepAccess ORTB_MAP (path ++ key))); [ | reflexivity ].
  destruct (_ && truthy optout); [ reflexivity | ].
  apply bind_snd.
  - unfold modified_value.
    destruct (strict_eq_str _ "object" && negb _); [ apply IH | ].
    destruct (truthy _ && truthy _); [ | reflexivity ].
    apply filterArrayData_with_snd. intros; apply IH.
  - intros modified. destruct (negb (isEmptyData modified)); reflexivity.
Qed.

(** X19.  The label [parent] is used in the diagnostics only: what
    [validateFpd] and [filterArrayData] return, or whether they raise,
    does not depend on it. *)
Theorem parent_label_irrelevant fpd arr child path parent parent' :
  snd (validateFpd ORTB_MAP optout fpd path parent)
  = snd (validateFpd ORTB_MAP optout fpd path parent')
  /\ snd (filterArrayData ORTB_MAP optout arr child path parent)
     = snd (filterArrayData ORTB_MAP optout arr child path parent').
Proof.
  split.
  - apply validateFpd_snd.
  - apply filterArrayData_with_snd. intros. apply validateFpd_snd.
Qed.

End Labels.

(** *** Instances *)


Lemma validateFpd_depth_bound_witness :
  finishes (validateFpd_ Samples.site_table VUndef 4 Samples.site_input "" "")
  /\ validateFpd_ Samples.site_table VUndef 4 Samples.site_input "" ""
     = validateFpd Samples.site_table VUndef Samples.site_input "" "".
Proof. apply validateFpd_depth_bound. vm_compute. lia. Defined.

Lemma validateFpd_keys_witness :
  exists props,
    Samples.site_output = VObj props
    /\ NoDup (map fst props)
    /\ forall k, In k (map fst props) ->
                 In k (Object_keys Samples.site_input) /\ k <> "".
Proof.
  apply (validateFpd_keys Samples.site_table VUndef Samples.site_input "" ""
           Samples.site_log).
  reflexivity.
Defined.

Lemma validateFpd_no_keys_witness :
  validateFpd Samples.site_table VUndef (VNum (Finite 5)) "" ""
  = ([], Ret (VObj [])).
Proof. apply validateFpd_no_keys. reflexivity. Defined.

Lemma validateFpd_keeps_unmapped_witness :
  get Samples.site_output "extra" = get Samples.site_input "extra".
Proof.
  apply (validateFpd_keeps_unmapped Samples.site_table VUndef
           Samples.site_input "" "" Samples.site_log).
  - reflexivity.
  - simpl. auto 10.
  - discriminate.
  - discriminate.
  - reflexivity.
  - reflexivity.
Defined.

Lemma validateFpd_drops_witness :
  ~ In "imp" (Object_keys Samples.site_output).
Proof.
  apply (validateFpd_drops Samples.site_table VUndef Samples.site_input "" ""
           Samples.site_log).
  - reflexivity.
  - reflexivity.
  - left. reflexivity.
Defined.

Lemma validateFpd_kept_sound_witness :
  truthy (get (deepAccess Samples.site_table ("" ++ "cur")) "invalid") = false
  /\ truthy (get (deepAccess Samples.site_table ("" ++ "cur")) "optoutApplies")
     && truthy VUndef = false
  /\ typeValidation (get Samples.site_output "cur")
       (mkShape (get (deepAccess Samples.site_table ("" ++ "cur")) "type")
                (get (deepAccess Samples.site_table ("" ++ "cur")) "isArray"))
     = true
  /\ isEmptyData (get Samples.site_output "cur") = false.
Proof.
  apply (validateFpd_kept_sound Samples.site_table VUndef Samples.site_input
           "" "" Samples.site_log).
  - reflexivity.
  - simpl. auto 10.
  - reflexivity.
Defined.



Lemma validateFpd_raises_on_non_array_witness :
  snd (validateFpd Samples.site_table VUndef (VObj [("tags", VStr "abc")]) "" "")
  = TypeError.
Proof.
  apply (validateFpd_raises_on_non_array Samples.site_table VUndef
           (VObj [("tags", VStr "abc")]) "" "" "tags").
  - simpl. auto.
  - reflexivity.
  - reflexivity.
  - reflexivity.
  - reflexivity.
  - reflexivity.
  - reflexivity.
Defined.

Lemma validateFpd_identity_unmapped_witness :
  validateFpd Samples.site_table VUndef
              (VObj [("extra", VNum (Finite 1)); ("ext", VObj [])]) "" ""
  = ([], Ret (VObj [("extra", VNum (Finite 1)); ("ext", VObj [])])).
Proof.
  apply validateFpd_identity_unmapped.
  - repeat constructor; simpl; intuition discriminate.
  - simpl. intuition discriminate.
  - simpl. intuition discriminate.
  - intros k [<- | [<- | []]]; split; reflexivity.
Defined.

Lemma validateFpd_optout_truthiness_witness :
  validateFpd Samples.site_table (VStr "1") Samples.site_input "" ""
  = validateFpd Samples.site_table (VBool true) Samples.site_input "" "".
Proof. apply validateFpd_optout_truthiness. reflexivity. Defined.

Lemma filterArrayData_keeps_verbatim_witness :
  VArr [VStr "USD"; VStr "EUR"]
  = VArr (filter (required_ok Samples.site_table "cur")
                 (filter (type_ok (mkShape (VStr "string") VUndef))
                         Samples.cur_array)).
Proof.
  apply (filterArrayData_keeps_verbatim Samples.site_table VUndef
           Samples.cur_array (mkShape (VStr "string") VUndef) "cur" "cur"
           ["Filtered cur[] value at index 1 in ortb2 data: expected type string"]).
  - left. reflexivity.
  - reflexivity.
Defined.

Lemma filterArrayData_strings_witness :
  filterArrayData Samples.site_table VUndef (VArr Samples.cur_array)
                  (mkShape (VStr "string") VUndef) "cur" "cur"
  = (map (fun i => type_stage_warning "cur" i (VStr "string"))
         (rejected_indices is_string Samples.cur_array 0),
     Ret (VArr (filter is_string Samples.cur_array))).
Proof. apply filterArrayData_strings; reflexivity. Defined.

Lemma filterArrayData_length_witness :
  exists kept,
    VArr [VObj [("id", VStr "k"); ("x", VNum (Finite 1))]] = VArr kept
    /\ List.length kept <= List.length Samples.data_array.
Proof.
  apply (filterArrayData_length Samples.site_table VUndef Samples.data_array
           (mkShape (VStr "object") VUndef) "data" "data"
           ["Filtered data.id property in ortb2 data: expected type string";
            "Filtered data[] value at index 1  in ortb2 data: expected type object"]).
  reflexivity.
Defined.

Lemma filterArrayData_elements_nonempty_witness :
  exists kept,
    VArr [VObj [("id", VStr "k"); ("x", VNum (Finite 1))]] = VArr kept
    /\ Forall (fun e => exists props, e = VObj props /\ props <> []) kept.
Proof.
  apply (filterArrayData_elements_nonempty Samples.site_table VUndef
           Samples.data_array (mkShape (VStr "object") VUndef) "data" "data"
           ["Filtered data.id property in ortb2 data: expected type string";
            "Filtered data[] value at index 1  in ortb2 data: expected type object"]).
  - reflexivity.
  - reflexivity.
  - reflexivity.
Defined.

Lemma runValidations_raises_witness :
  snd (runValidations Samples.site_table VUndef
                      (VObj [("global", Samples.site_input)]))
  = TypeError.
Proof. apply runValidations_raises. right. reflexivity. Defined.

Lemma runValidations_shape_witness :
  exists global bidders,
    VObj [("global", Samples.site_output);
          ("bidder", VObj [("a", VObj []); ("b", VObj [])])]
    = VObj [("global", VObj global); ("bidder", VObj bidders)]
    /\ Forall (fun b => exists props, snd b = VObj props) bidders
    /\ (NoDup (Object_keys (get Samples.site_data "bidder")) ->
        map fst bidders = Object_keys (get Samples.site_data "bidder")).
Proof.
  apply (runValidations_shape Samples.site_table VUndef Samples.site_data
           (Samples.site_log
            ++ ["Filtered imp property in ortb2 data: invalid property"])).
  reflexivity.
Defined.


